(** * Adafruit_SH110X: framebuffer, pixel addressing and display refresh

    A shallow embedding of the driver's pixel primitives
    ([drawPixel], [getPixel], [clearDisplay] of [src/Adafruit_SH110X.cpp])
    and of its two refresh routines ([display] of [src/Adafruit_SH110X.cpp],
    which sends the whole buffer, and [display] of [src/unnamed/part_000],
    which sends the dirty window), followed by the properties of these
    functions.

    Machine integers are values of [Z] with the wrap-around of every
    narrowing assignment written out; C's [/] and [%] are [Z.quot] and
    [Z.rem].  The framebuffer is a [list Z] of bytes indexed with stdpp's
    list lookup.  The I2C device is a log of the operations issued on it,
    each recorded with the status the device returned. *)

From Stdlib Require Import ZArith Lia Bool.
From stdpp Require Import base list list_numbers.

Local Open Scope Z_scope.

(** ** Machine integers *)

Definition uint8_t (z : Z) : Z := z mod 256.
Definition uint16_t (z : Z) : Z := z mod 65536.
Definition int16_t (z : Z) : Z := (z + 32768) mod 65536 - 32768.

(** The [min] and [max] macros of Arduino.h:
    [((a)<(b)?(a):(b))] and [((a)>(b)?(a):(b))]. *)
Module Arduino.
Definition min (a b : Z) : Z := if a <? b then a else b.
Definition max (a b : Z) : Z := if a >? b then a else b.
End Arduino.

(** ** Constants of the header (src/unnamed/part_002) *)

Definition SH110X_BLACK : Z := 0.
Definition SH110X_WHITE : Z := 1.
Definition SH110X_INVERSE : Z := 2.
Definition SH110X_SETPAGEADDR : Z := 0xB0.

(** ** The I2C device

    [Adafruit_I2CDevice] belongs to another library; the driver uses three of
    its members.  [maxBufferSize] is the value the device reports.  Every
    [write] and [setSpeed] is appended to a log together with the status the
    call returned; the status of the operation issued at position [n] of the
    log is [ack n], so that a device may fail any write at any time. *)

Inductive BusOp : Type :=
| I2C_write (data : list Z) (stop : bool) (prefix : list Z)
| I2C_setSpeed (hz : Z).

Definition Log : Type := list (BusOp * bool).

Record Adafruit_I2CDevice : Type := {
  maxBufferSize : Z;
  ack : nat -> bool
}.

(** [i2c_dev->write(buffer, len, stop, prefix_buffer, prefix_len)]: the new
    log and the returned status. *)
Definition i2c_write (dev : Adafruit_I2CDevice) (data : list Z) (stop : bool)
    (prefix : list Z) (bus : Log) : Log * bool :=
  let ok := ack dev (length bus) in
  (bus ++ [(I2C_write data stop prefix, ok)], ok).

(** [i2c_dev->setSpeed(hz)]. *)
Definition i2c_setSpeed (dev : Adafruit_I2CDevice) (hz : Z) (bus : Log)
    : Log * bool :=
  let ok := ack dev (length bus) in
  (bus ++ [(I2C_setSpeed hz, ok)], ok).

(** The operations of a log, the write operations among them, and the
    operations whose status was a failure. *)
Definition ops (bus : Log) : list BusOp := bus.*1.

Definition is_write (o : BusOp) : bool :=
  match o with I2C_write _ _ _ => true | I2C_setSpeed _ => false end.

Definition writes (bus : Log) : list BusOp := List.filter is_write (ops bus).

(** A page-select command is the four-byte write
    [{0x00, SH110X_SETPAGEADDR + p, 0x10 + hi, lo}] sent without prefix; a
    data transfer is a write prefixed with the data discriminator [0x40]. *)
Definition is_page_select (o : BusOp) : bool :=
  match o with
  | I2C_write [_; _; _; _] _ [] => true
  | _ => false
  end.

Definition is_data_transfer (o : BusOp) : bool :=
  match o with
  | I2C_write _ _ [0x40] => true
  | _ => false
  end.

Definition payload (o : BusOp) : list Z :=
  match o with I2C_write data _ _ => data | I2C_setSpeed _ => [] end.

(** ** The display object

    The members the driver's functions use: the constant physical size
    [WIDTH] x [HEIGHT] and the rotation kept by Adafruit_GFX, the
    framebuffer, the I2C device pointer ([None] is the null pointer), and the
    dirty window and clock settings used by [display] of part_000.  The
    class of src/Adafruit_SH110X.cpp has no dirty window: its functions
    neither read nor write the window fields, which belong to the class of
    part_000 alone. *)

Record Display : Type := {
  WIDTH : Z;
  HEIGHT : Z;
  rotation : Z;
  buffer : list Z;
  i2c_dev : option Adafruit_I2CDevice;
  window_x1 : Z;
  window_y1 : Z;
  window_x2 : Z;
  window_y2 : Z;
  i2c_preclk : Z;
  i2c_postclk : Z
}.

Definition set_buffer (d : Display) (b : list Z) : Display :=
  {| WIDTH := WIDTH d; HEIGHT := HEIGHT d; rotation := rotation d;
     buffer := b; i2c_dev := i2c_dev d;
     window_x1 := window_x1 d; window_y1 := window_y1 d;
     window_x2 := window_x2 d; window_y2 := window_y2 d;
     i2c_preclk := i2c_preclk d; i2c_postclk := i2c_postclk d |}.

Definition set_window (d : Display) (x1 y1 x2 y2 : Z) : Display :=
  {| WIDTH := WIDTH d; HEIGHT := HEIGHT d; rotation := rotation d;
     buffer := buffer d; i2c_dev := i2c_dev d;
     window_x1 := x1; window_y1 := y1;
     window_x2 := x2; window_y2 := y2;
     i2c_preclk := i2c_preclk d; i2c_postclk := i2c_postclk d |}.

Definition window (d : Display) : Z * Z * Z * Z :=
  (window_x1 d, window_y1 d, window_x2 d, window_y2 d).

(** Modelled from the spec: Adafruit_GFX is a separate library and its
    [getRotation], [width] and [height] are not among the sources.  The
    rotation is one of four states, and the logical width and height are the
    physical ones, swapped under the rotations by 90 and 270 degrees. *)
Definition getRotation (d : Display) : Z := rotation d.

Definition width (d : Display) : Z :=
  if (rotation d =? 1) || (rotation d =? 3) then HEIGHT d else WIDTH d.

Definition height (d : Display) : Z :=
  if (rotation d =? 1) || (rotation d =? 3) then WIDTH d else HEIGHT d.

(** The size in bytes of the framebuffer, [WIDTH * ((HEIGHT + 7) / 8)], as
    [begin] allocates it and [clearDisplay] clears it. *)
Definition buffer_size (d : Display) : Z := WIDTH d * ((HEIGHT d + 7) ÷ 8).

(** ** Outcomes of a call

    A call returns, dereferences a null pointer, divides by zero, or is still
    running when the fuel of its [while] loop is spent. *)

Inductive outcome (A : Type) : Type :=
| Returns (a : A)
| NullDeref
| DivByZero
| OutOfFuel.
Arguments Returns {A} a.
Arguments NullDeref {A}.
Arguments DivByZero {A}.
Arguments OutOfFuel {A}.

#[global] Instance outcome_ret : MRet outcome := fun A a => Returns a.

#[global] Instance outcome_bind : MBind outcome := fun A B k m =>
  match m with
  | Returns a => k a
  | NullDeref => NullDeref
  | DivByZero => DivByZero
  | OutOfFuel => OutOfFuel
  end.

(** [p->member] on a pointer that may be null. *)
Definition deref {A : Type} (p : option A) : outcome A :=
  match p with
  | Some a => Returns a
  | None => NullDeref
  end.

(** [a / b] and [a % b] with a divisor that may be zero. *)
Definition c_div (a b : Z) : outcome Z :=
  if b =? 0 then DivByZero else Returns (a ÷ b).

Definition c_rem (a b : Z) : outcome Z :=
  if b =? 0 then DivByZero else Returns (Z.rem a b).

(** ** The transfer loop of both [display] functions

    [[
      while (bytes_remaining) {
        uint8_t to_write = ...;
        i2c_dev->write(ptr, to_write, true, &dc_byte, 1);
        ptr += to_write;
        bytes_remaining -= to_write;
        yield();
      }
    ]]
    [ptr] is an offset into the framebuffer and [bytes_remaining] a
    [uint8_t].  The two functions differ in the expression for [to_write],
    which is the parameter [chunk] applied to [bytes_remaining].  The status
    that [write] returns is dropped, as in the source.  The loop returns the
    final [ptr] with the log.  Bytes past the end of the allocation are not
    part of the model: a transfer reaching there carries the bytes inside the
    allocation only.  [yield()] hands control to the scheduler and touches
    neither the object nor the bus; it has no counterpart here. *)

Definition dc_byte : Z := 0x40.

Definition read (buf : list Z) (ptr len : Z) : list Z :=
  take (Z.to_nat len) (drop (Z.to_nat ptr) buf).

Fixpoint transfer (fuel : nat) (dev : Adafruit_I2CDevice) (buf : list Z)
    (chunk : Z -> Z) (ptr bytes_remaining : Z) (bus : Log)
    : outcome (Z * Log) :=
  if bytes_remaining =? 0 then Returns (ptr, bus)
  else
    match fuel with
    | O => OutOfFuel
    | S fuel =>
        let to_write := chunk bytes_remaining in
        let bus := (i2c_write dev (read buf ptr to_write) true [dc_byte] bus).1 in
        let ptr := ptr + to_write in
        let bytes_remaining := uint8_t (bytes_remaining - to_write) in
        transfer fuel dev buf chunk ptr bytes_remaining bus
    end.

(** [for (uint8_t p = first; p < pages; p++) body]: the body run for each
    [p] of [first, first + 1, ..., pages - 1] in turn, threading the state. *)
Fixpoint for_each {S : Type} (body : Z -> S -> outcome S) (ps : list Z) (s : S)
    : outcome S :=
  match ps with
  | [] => Returns s
  | p :: ps => s ← body p s; for_each body ps s
  end.

Definition page_range (first pages : Z) : list Z := seqZ first (pages - first).

(** ** src/Adafruit_SH110X.cpp: the class derived from Adafruit_GFX *)

Module GFX.

(** [sh110x_swap(a, b)]: [(((a) ^= (b)), ((b) ^= (a)), ((a) ^= (b)))]. *)
Definition sh110x_swap (a b : Z) : Z * Z :=
  let a := Z.lxor a b in
  let b := Z.lxor b a in
  let a := Z.lxor a b in
  (a, b).

(** The [switch(getRotation())] that [drawPixel] and [getPixel] both
    contain, word for word. *)
Definition rotate (d : Display) (x y : Z) : Z * Z :=
  if getRotation d =? 1 then
    let '(x, y) := sh110x_swap x y in
    let x := int16_t (WIDTH d - x - 1) in
    (x, y)
  else if getRotation d =? 2 then
    let x := int16_t (WIDTH d - x - 1) in
    let y := int16_t (HEIGHT d - y - 1) in
    (x, y)
  else if getRotation d =? 3 then
    let '(x, y) := sh110x_swap x y in
    let y := int16_t (HEIGHT d - y - 1) in
    (x, y)
  else (x, y).

(** [(x >= 0) && (x < width()) && (y >= 0) && (y < height())]. *)
Definition in_bounds (d : Display) (x y : Z) : bool :=
  (x >=? 0) && (x <? width d) && (y >=? 0) && (y <? height d).

(** [buffer[i] op= v]: the byte at [i] replaced by [f] of it, truncated to
    eight bits.  An index outside the allocation, where the C++ code would
    write to foreign memory, changes nothing here. *)
Definition update (d : Display) (i : Z) (f : Z -> Z) : Display :=
  set_buffer d (alter (fun b => uint8_t (f b)) (Z.to_nat i) (buffer d)).

Definition drawPixel (d : Display) (x y : Z) (color : Z) : Display :=
  if in_bounds d x y then
    let '(x, y) := rotate d x y in
    if color =? SH110X_WHITE then
      update d (x + (y ÷ 8) * WIDTH d)
        (fun b => Z.lor b (Z.shiftl 1 (Z.land y 7)))
    else if color =? SH110X_BLACK then
      update d (x + (y ÷ 8) * WIDTH d)
        (fun b => Z.land b (Z.lnot (Z.shiftl 1 (Z.land y 7))))
    else if color =? SH110X_INVERSE then
      update d (x + (y ÷ 8) * WIDTH d)
        (fun b => Z.lxor b (Z.shiftl 1 (Z.land y 7)))
    else d
  else d.

(** [memset(buffer, 0, n)] over the allocation. *)
Definition memset (l : list Z) (c : Z) (n : Z) : list Z :=
  replicate (Nat.min (Z.to_nat n) (length l)) c ++ drop (Z.to_nat n) l.

(** [clearDisplay] writes the framebuffer, the one member it names. *)
Definition clearDisplay (d : Display) : Display :=
  set_buffer d (memset (buffer d) 0 (WIDTH d * ((HEIGHT d + 7) ÷ 8))).

(** The result is the conversion to [boolean] of
    [buffer[x + (y / 8) * WIDTH] & (1 << (y & 7))]: true when it is not
    zero.  A read outside the allocation yields an unspecified byte, the
    default element of the lookup. *)
Definition getPixel (d : Display) (x y : Z) : bool :=
  if in_bounds d x y then
    let '(x, y) := rotate d x y in
    negb (Z.land (buffer d !!! Z.to_nat (x + (y ÷ 8) * WIDTH d))
                 (Z.shiftl 1 (Z.land y 7)) =? 0)
  else false.

(** The body of the page loop: page-select command, then the whole page. *)
Definition display_page (fuel : nat) (dev : Adafruit_I2CDevice) (d : Display)
    (bytes_per_page maxbuff : Z) (p : Z) (st : Z * Log) : outcome (Z * Log) :=
  let '(ptr, bus) := st in
  let bytes_remaining := bytes_per_page in
  let cmd := [0x00; uint8_t (SH110X_SETPAGEADDR + p); 0x10; 0x00] in
  let bus := (i2c_write dev cmd true [] bus).1 in
  transfer fuel dev (buffer d)
    (fun bytes_remaining => uint8_t (Arduino.min bytes_remaining maxbuff))
    ptr bytes_remaining bus.

(** [display].  The lines printing on [Serial] are left out; [buffs], which
    only they use, is still computed. *)
Definition display (fuel : nat) (d : Display) (bus : Log)
    : outcome (Display * Log) :=
  let count := uint16_t (WIDTH d * ((HEIGHT d + 7) ÷ 8)) in
  let ptr := 0 in
  let pages := uint8_t ((HEIGHT d + 7) ÷ 8) in
  let bytes_per_page := uint8_t (WIDTH d) in
  dev ← deref (i2c_dev d);
  let maxbuff := uint16_t (maxBufferSize dev - 1) in
  bus ← match i2c_dev d with
        | Some dev =>
            buffs ← c_div bytes_per_page maxbuff;
            r ← c_rem count maxbuff;
            let buffs := if r =? 0 then buffs else uint8_t (buffs + 1) in
            st ← for_each (display_page fuel dev d bytes_per_page maxbuff)
                   (page_range 0 pages) (ptr, bus);
            mret st.2
        | None => mret bus
        end;
  mret (d, bus).

End GFX.

(** ** src/unnamed/part_000: the class derived from Adafruit_GrayOLED *)

Module GrayOLED.

(** The body of the page loop. *)
Definition display_page (fuel : nat) (dev : Adafruit_I2CDevice) (d : Display)
    (bytes_per_page maxbuff page_start page_end : Z) (p : Z) (bus : Log)
    : outcome Log :=
  let bytes_remaining := bytes_per_page in
  let ptr := uint16_t p * uint16_t bytes_per_page in
  let ptr := ptr + page_start in
  let bytes_remaining := uint8_t (bytes_remaining - page_start) in
  let bytes_remaining :=
    uint8_t (bytes_remaining - ((WIDTH d - 1) - page_end)) in
  let cmd := [0x00; uint8_t (SH110X_SETPAGEADDR + p);
              uint8_t (0x10 + Z.shiftr page_start 4);
              uint8_t (Z.land page_start 0xF)] in
  let bus := (i2c_write dev cmd true [] bus).1 in
  st ← transfer fuel dev (buffer d)
         (fun bytes_remaining => Arduino.min bytes_remaining (uint8_t maxbuff))
         ptr bytes_remaining bus;
  mret st.2.

Definition display (fuel : nat) (d : Display) (bus : Log)
    : outcome (Display * Log) :=
  let count := uint16_t (WIDTH d * ((HEIGHT d + 7) ÷ 8)) in
  let pages := uint8_t ((HEIGHT d + 7) ÷ 8) in
  let bytes_per_page := uint8_t (WIDTH d) in
  dev ← deref (i2c_dev d);
  let maxbuff := uint16_t (maxBufferSize dev - 1) in
  let first_page := uint8_t (window_y1 d ÷ 8) in
  let last_page := uint8_t ((window_y2 d + 7) ÷ 8) in
  let page_start := Arduino.min bytes_per_page (uint8_t (window_x1 d)) in
  let page_end := uint8_t (Arduino.max 0 (window_x2 d)) in
  bus ← match i2c_dev d with
        | Some dev =>
            let bus := (i2c_setSpeed dev (i2c_preclk d) bus).1 in
            bus ← for_each
                    (display_page fuel dev d bytes_per_page maxbuff
                       page_start page_end)
                    (page_range first_page pages) bus;
            let bus := (i2c_setSpeed dev (i2c_postclk d) bus).1 in
            mret bus
        | None => mret bus
        end;
  mret (set_window d 1024 1024 (-1) (-1), bus).

End GrayOLED.

(** ** The dirty region tracker

    Modelled from the spec: the functions that record a pixel write in the
    dirty window belong to Adafruit_GrayOLED, which is not among the sources.
    [reset] restores the sentinel, the state [display] of part_000 leaves
    behind; [markDirty] widens the window to contain a physical point;
    [isEmpty] recognises an inverted rectangle. *)

Definition reset (d : Display) : Display := set_window d 1024 1024 (-1) (-1).

Definition markDirty (d : Display) (x y : Z) : Display :=
  set_window d (Z.min (window_x1 d) x) (Z.min (window_y1 d) y)
               (Z.max (window_x2 d) x) (Z.max (window_y2 d) y).

Definition isEmpty (d : Display) : bool :=
  (window_x1 d >? window_x2 d) || (window_y1 d >? window_y2 d).

(** Modelled from the spec: [clearDisplay] of the class that keeps the dirty
    window belongs to Adafruit_GrayOLED, which is not among the sources; the
    only [clearDisplay] in them is that of the older class, which has no
    window.  Section 4.2: it zeroes the entire buffer and marks the entire
    buffer dirty, registering the full rectangle.  The zeroing is the
    [memset] of src/Adafruit_SH110X.cpp:381. *)
Definition GrayOLED_clearDisplay (d : Display) : Display :=
  set_window (GFX.clearDisplay d) 0 0 (WIDTH d - 1) (HEIGHT d - 1).

(** The local variables of [display] of part_000 before its page loop, and
    [bytes_remaining] as it stands before the transfer loop of a page
    (part_000:234-236, 251-254, 273-279). *)
Module Flush.
Definition pages (d : Display) : Z := uint8_t ((HEIGHT d + 7) ÷ 8).
Definition bytes_per_page (d : Display) : Z := uint8_t (WIDTH d).
Definition first_page (d : Display) : Z := uint8_t (window_y1 d ÷ 8).
Definition page_start (d : Display) : Z :=
  Arduino.min (bytes_per_page d) (uint8_t (window_x1 d)).
Definition page_end (d : Display) : Z :=
  uint8_t (Arduino.max 0 (window_x2 d)).
Definition bytes_remaining (d : Display) : Z :=
  uint8_t (uint8_t (bytes_per_page d - page_start d)
           - ((WIDTH d - 1) - page_end d)).
End Flush.

(** ** Example objects *)

(** A device that acknowledges everything, and one that fails the operation
    issued at position [n] of the log. *)
Definition reliable (maxbuf : Z) : Adafruit_I2CDevice :=
  {| maxBufferSize := maxbuf; ack := fun _ => true |}.

Definition failing_at (maxbuf : Z) (n : nat) : Adafruit_I2CDevice :=
  {| maxBufferSize := maxbuf; ack := fun k => negb (Nat.eqb k n) |}.

(** A [w] x [h] display as [begin] leaves it after [clearDisplay]: zeroed
    buffer of [w * ((h + 7) / 8)] bytes, rotation 0. *)
Definition blank (w h : Z) (dev : option Adafruit_I2CDevice) : Display :=
  {| WIDTH := w; HEIGHT := h; rotation := 0;
     buffer := replicate (Z.to_nat (w * ((h + 7) ÷ 8))) 0;
     i2c_dev := dev;
     window_x1 := 1024; window_y1 := 1024; window_x2 := -1; window_y2 := -1;
     i2c_preclk := 400000; i2c_postclk := 100000 |}.

(** A 16 x 16 display with columns 3..12 of row 9 dirty. *)
Definition dirty_row (dev : option Adafruit_I2CDevice) : Display :=
  set_window (blank 16 16 dev) 3 9 12 9.

(** The same object turned to rotation [r]. *)
Definition rotated (d : Display) (r : Z) : Display :=
  {| WIDTH := WIDTH d; HEIGHT := HEIGHT d; rotation := r;
     buffer := buffer d; i2c_dev := i2c_dev d;
     window_x1 := window_x1 d; window_y1 := window_y1 d;
     window_x2 := window_x2 d; window_y2 := window_y2 d;
     i2c_preclk := i2c_preclk d; i2c_postclk := i2c_postclk d |}.

(** ** Statements of the specification *)

(** The coordinate transform in the words of the specification: the physical
    point that a logical point denotes under each rotation, for unrotated
    dimensions [W] x [H]. *)
Definition logical_to_physical (W H rot x y : Z) : Z * Z :=
  if rot =? 0 then (x, y)
  else if rot =? 1 then (W - y - 1, x)
  else if rot =? 2 then (W - x - 1, H - y - 1)
  else (y, H - x - 1).

(** The byte and the bit of a physical point. *)
Definition byte_index (W x' y' : Z) : nat := Z.to_nat (x' + (y' / 8) * W).
Definition bit_index (y' : Z) : Z := y' mod 8.

(** The byte and the bit of the framebuffer that the specification assigns
    to the logical point [(x, y)] of a display. *)
Definition physical (d : Display) (x y : Z) : Z * Z :=
  logical_to_physical (WIDTH d) (HEIGHT d) (rotation d) x y.

Definition pixel_byte (d : Display) (x y : Z) : nat :=
  byte_index (WIDTH d) (physical d x y).1 (physical d x y).2.

Definition pixel_bit (d : Display) (x y : Z) : Z :=
  bit_index (physical d x y).2.

(** Bit [k] of byte [i] of a buffer. *)
Definition bit_at (buf : list Z) (i : nat) (k : Z) : bool :=
  Z.testbit (buf !!! i) k.

(** What a colour does to the addressed bit. *)
Definition paint (color : Z) (old : bool) : bool :=
  if color =? SH110X_WHITE then true
  else if color =? SH110X_BLACK then false
  else if color =? SH110X_INVERSE then negb old
  else old.

(** The object after a successful [begin] of src/Adafruit_SH110X.cpp: the
    constructor takes the dimensions as [uint8_t], the rotation is one of the
    four states, and the buffer has the allocated size. *)
Record begun (d : Display) : Prop := {
  begun_width : 0 < WIDTH d <= 255;
  begun_height : 0 < HEIGHT d <= 255;
  begun_rotation : 0 <= rotation d <= 3;
  begun_buffer : length (buffer d) = Z.to_nat (buffer_size d)
}.

(** The logical bounds, as a proposition. *)
Definition inside (d : Display) (x y : Z) : Prop :=
  0 <= x < width d /\ 0 <= y < height d.

(** The dirty window contains the whole buffer rectangle. *)
Definition covers_full (d : Display) : Prop :=
  window_x1 d <= 0 /\ window_y1 d <= 0 /\
  WIDTH d - 1 <= window_x2 d /\ HEIGHT d - 1 <= window_y2 d.

(** The page-select command for page [p] and start column [col]. *)
Definition page_select (p col : Z) : BusOp :=
  I2C_write [0x00; uint8_t (SH110X_SETPAGEADDR + p);
             uint8_t (0x10 + Z.shiftr col 4); uint8_t (Z.land col 0xF)]
    true [].

(** The data transfers that carry the [w] bytes at offset [ptr] with at most
    [m] bytes each: transfer [k] carries [min (w - k * m) m] bytes, the
    remaining ones capped by [m], and there are [ceil (w / m)] of them. *)
Definition page_transfers (buf : list Z) (ptr w m : Z) : list BusOp :=
  (fun k => I2C_write (read buf (ptr + k * m) (Z.min (w - k * m) m))
              true [dc_byte])
    <$> seqZ 0 ((w + m - 1) / m).

(** Columns [x1..x2] of page [p]. *)
Definition columns (d : Display) (p x1 x2 : Z) : list Z :=
  read (buffer d) (p * WIDTH d + x1) (x2 - x1 + 1).

(** What [display] of part_000 sends for page [p] of a window with columns
    [x1..x2], and for a whole flush starting at page [first]. *)
Definition page_ops (d : Display) (m : Z) (p : Z) : list BusOp :=
  page_select p (window_x1 d)
  :: page_transfers (buffer d) (p * WIDTH d + window_x1 d)
       (window_x2 d - window_x1 d + 1) m.

Definition pages_of (d : Display) : Z := (HEIGHT d + 7) / 8.

Definition flush_ops (d : Display) (m : Z) : list BusOp :=
  I2C_setSpeed (i2c_preclk d)
  :: concat (page_ops d m <$> page_range (window_y1 d / 8) (pages_of d))
  ++ [I2C_setSpeed (i2c_postclk d)].

(** The device's limit [maxBufferSize - 1] as [display] of part_000 compares
    with it, in a [uint8_t]. *)
Definition limit (dev : Adafruit_I2CDevice) : Z :=
  uint8_t (maxBufferSize dev - 1).

(** The object [display] of part_000 works on: an I2C device is attached,
    the width fits the [uint8_t] the function keeps it in, the height stays
    below the sentinel 1024 of the dirty window, the buffer is allocated, and
    the limit is not zero. *)
Record flushable (d : Display) (dev : Adafruit_I2CDevice) : Prop := {
  flushable_dev : i2c_dev d = Some dev;
  flushable_width : 0 < WIDTH d <= 255;
  flushable_height : 0 < HEIGHT d <= 1024;
  flushable_buffer : length (buffer d) = Z.to_nat (buffer_size d);
  flushable_limit : 0 < limit dev
}.

(** The whole range in which the eight-bit variables of [display] of
    part_000 hold the values they stand for: [bytes_per_page] holds [WIDTH]
    up to 255 columns, and [pages] holds [ceil (HEIGHT / 8)] up to 2040
    rows.  The rest as in [flushable]. *)
Record drivable (d : Display) (dev : Adafruit_I2CDevice) : Prop := {
  drivable_dev : i2c_dev d = Some dev;
  drivable_width : 0 < WIDTH d <= 255;
  drivable_height : 0 < HEIGHT d <= 2040;
  drivable_buffer : length (buffer d) = Z.to_nat (buffer_size d);
  drivable_limit : 0 < limit dev
}.

(** A dirty window that is not empty and lies inside the buffer. *)
Definition dirty_inside (d : Display) : Prop :=
  0 <= window_x1 d <= window_x2 d /\ window_x2 d < WIDTH d /\
  0 <= window_y1 d <= window_y2 d /\ window_y2 d < HEIGHT d.

(** The same object with another device attached. *)
Definition attach (d : Display) (dev : option Adafruit_I2CDevice) : Display :=
  {| WIDTH := WIDTH d; HEIGHT := HEIGHT d; rotation := rotation d;
     buffer := buffer d; i2c_dev := dev;
     window_x1 := window_x1 d; window_y1 := window_y1 d;
     window_x2 := window_x2 d; window_y2 := window_y2 d;
     i2c_preclk := i2c_preclk d; i2c_postclk := i2c_postclk d |}.

(** The page-select commands and the data transfers among operations. *)
Definition page_selects (l : list BusOp) : list BusOp :=
  List.filter is_page_select l.

Definition data_transfers (l : list BusOp) : list BusOp :=
  List.filter is_data_transfer l.

(** The same device with other statuses. *)
Definition with_ack (dev : Adafruit_I2CDevice) (ack' : nat -> bool)
    : Adafruit_I2CDevice :=
  {| maxBufferSize := maxBufferSize dev; ack := ack' |}.

(** The empty sentinel state of the dirty window. *)
Definition sentinel : Z * Z * Z * Z := (1024, 1024, -1, -1).

(** ** The command functions of src/Adafruit_SH110X.cpp

    [sh110x_command] and [sh110x_commandList] send on the I2C device when
    there is one and on the SPI device otherwise, after pulling the
    data/command pin low.  The SPI side is a second log: the pin writes and
    the SPI transactions in the order issued, each transaction with the
    status [spi_dev->write] returned, which is the status [spi_ack] gives for
    its position in the log.  [Wiring] holds the members of the class that
    these functions read besides [i2c_dev]. *)

Inductive PinOp : Type :=
| digitalWrite (pin val : Z)
| SPI_write (data : list Z) (ok : bool).

Record Adafruit_SPIDevice : Type := { spi_ack : nat -> bool }.

Record Wiring : Type := {
  spi_dev : option Adafruit_SPIDevice;
  dcPin : Z
}.

Definition LOW : Z := 0.

(** [spi_dev->write(buffer, len)]. *)
Definition spi_write (sdev : Adafruit_SPIDevice) (data : list Z)
    (pins : list PinOp) : list PinOp * bool :=
  let ok := spi_ack sdev (length pins) in
  (pins ++ [SPI_write data ok], ok).

(** [sh110x_command(c)]. *)
Definition sh110x_command (d : Display) (w : Wiring) (c : Z)
    (io : Log * list PinOp) : outcome (Log * list PinOp) :=
  match i2c_dev d with
  | Some dev =>
      let buf := [0x00; c] in
      mret ((i2c_write dev buf true [] io.1).1, io.2)
  | None =>
      let pins := io.2 ++ [digitalWrite (dcPin w) LOW] in
      sdev ← deref (spi_dev w);
      mret (io.1, (spi_write sdev [c] pins).1)
  end.

(** The loop [while (n--) { uint8_t b = pgm_read_byte(c++);
    spi_dev->write(&b, 1); }]; [c] is what is left of the array, and a byte
    read past its end, unspecified in C++, is 0 here. *)
Fixpoint spi_each (n : nat) (c : list Z) (w : Wiring) (pins : list PinOp)
    : outcome (list PinOp) :=
  match n with
  | O => mret pins
  | S n =>
      let b := hd 0 c in
      let c := tl c in
      sdev ← deref (spi_dev w);
      let pins := (spi_write sdev [b] pins).1 in
      spi_each n c w pins
  end.

(** [sh110x_commandList(c, n)], with its [bool] result. *)
Definition sh110x_commandList (d : Display) (w : Wiring) (c : list Z) (n : Z)
    (io : Log * list PinOp) : outcome ((Log * list PinOp) * bool) :=
  match i2c_dev d with
  | Some dev =>
      let dc_byte := 0x00 in
      let '(bus, ok) := i2c_write dev (read c 0 n) true [dc_byte] io.1 in
      if negb ok then mret ((bus, io.2), false)
      else mret ((bus, io.2), true)
  | None =>
      let pins := io.2 ++ [digitalWrite (dcPin w) LOW] in
      pins ← spi_each (Z.to_nat n) c w pins;
      mret ((io.1, pins), true)
  end.

(** The bytes an I2C write puts on the wire after the address, prefix
    first, and the bytes a log has put there in all; the bytes a pin log has
    sent over SPI. *)
Definition wire (o : BusOp) : list Z :=
  match o with
  | I2C_write data _ prefix => prefix ++ data
  | I2C_setSpeed _ => []
  end.

Definition wire_stream (bus : Log) : list Z := concat (wire <$> ops bus).

Definition spi_data (o : PinOp) : list Z :=
  match o with
  | SPI_write data _ => data
  | digitalWrite _ _ => []
  end.

Definition spi_stream (pins : list PinOp) : list Z :=
  concat (spi_data <$> pins).

(** ** Further notions for the pixel primitives *)

(** The byte operator that [drawPixel] applies for a colour and a mask, before
    the result is stored back into the [uint8_t] of the buffer. *)
Definition pixel_op (color mask b : Z) : Z :=
  if color =? SH110X_WHITE then Z.lor b mask
  else if color =? SH110X_BLACK then Z.land b (Z.lnot mask)
  else if color =? SH110X_INVERSE then Z.lxor b mask
  else b.

(** A colour that the switch of [drawPixel] knows. *)
Definition known_color (color : Z) : bool :=
  (color =? SH110X_WHITE) || (color =? SH110X_BLACK)
  || (color =? SH110X_INVERSE).

(** Every element of the buffer is a byte. *)
Definition bytes (buf : list Z) : Prop := Forall (fun b => 0 <= b < 256) buf.

(** The physical rectangle. *)
Definition on_panel (d : Display) (x' y' : Z) : Prop :=
  0 <= x' < WIDTH d /\ 0 <= y' < HEIGHT d.

(** ** Machine arithmetic *)

Ltac Zify.zify_post_hook ::= Z.to_euclidean_division_equations.

(** Closed side conditions about example objects, settled by evaluation. *)
Ltac evaluate := vm_compute; intuition congruence.

Lemma uint8_t_small z : 0 <= z < 256 -> uint8_t z = z.
Proof. intros. unfold uint8_t. lia. Qed.

Lemma uint16_t_small z : 0 <= z < 65536 -> uint16_t z = z.
Proof. intros. unfold uint16_t. lia. Qed.

Lemma int16_t_small z : -32768 <= z < 32768 -> int16_t z = z.
Proof. intros. unfold int16_t. lia. Qed.

Lemma uint8_t_uint16_t z : uint8_t (uint16_t z) = uint8_t z.
Proof. unfold uint8_t, uint16_t. lia. Qed.

Lemma land_7 y : Z.land y 7 = y mod 8.
Proof. change 7 with (Z.ones 3). now rewrite Z.land_ones. Qed.

Lemma land_15 y : Z.land y 15 = y mod 16.
Proof. change 15 with (Z.ones 4). now rewrite Z.land_ones. Qed.

(** Masking with a single bit tests that bit. *)
Lemma land_bit_eqb b k :
  0 <= k -> (Z.land b (Z.shiftl 1 k) =? 0) = negb (Z.testbit b k).
Proof.
  intros Hk. rewrite Z.shiftl_1_l.
  destruct (Z.testbit b k) eqn:E; simpl.
  - apply Z.eqb_neq. intros H0.
    assert (Hb : Z.testbit (Z.land b (2 ^ k)) k = true)
      by (rewrite Z.land_spec, E, Z.pow2_bits_true; auto).
    rewrite H0, Z.bits_0 in Hb. discriminate.
  - apply Z.eqb_eq, Z.bits_inj'. intros n Hn.
    rewrite Z.land_spec, Z.bits_0, Z.pow2_bits_eqb by lia.
    destruct (Z.eqb_spec k n) as [->|]; rewrite ?E, ?andb_false_r; auto.
Qed.

(** The low eight bits survive the truncation to a byte. *)
Lemma uint8_t_testbit z k : 0 <= k < 8 -> Z.testbit (uint8_t z) k = Z.testbit z k.
Proof.
  intros. unfold uint8_t. change 256 with (2 ^ 8).
  apply Z.mod_pow2_bits_low. lia.
Qed.

Lemma shiftl_1_testbit k j :
  0 <= k -> 0 <= j -> Z.testbit (Z.shiftl 1 k) j = (k =? j).
Proof. intros. rewrite Z.shiftl_1_l. apply Z.pow2_bits_eqb. lia. Qed.

(** The exclusive-or exchange does exchange. *)
Lemma sh110x_swap_swaps a b : GFX.sh110x_swap a b = (b, a).
Proof.
  unfold GFX.sh110x_swap.
  f_equal; apply Z.bits_inj'; intros n _; rewrite !Z.lxor_spec;
    destruct (Z.testbit a n), (Z.testbit b n); reflexivity.
Qed.

(** ** Pixel addressing *)

Lemma in_bounds_inside d x y : GFX.in_bounds d x y = true <-> inside d x y.
Proof. unfold GFX.in_bounds, inside. rewrite !andb_true_iff. lia. Qed.

Lemma in_bounds_outside d x y : ~ inside d x y -> GFX.in_bounds d x y = false.
Proof.
  intros H. destruct (GFX.in_bounds d x y) eqn:E; [|reflexivity].
  apply in_bounds_inside in E. contradiction.
Qed.

(** On a point inside the logical bounds the rotation switch of the source
    computes the transform of the specification, and the result lies inside
    the physical bounds. *)
Lemma rotate_physical d x y :
  begun d -> inside d x y -> GFX.rotate d x y = physical d x y.
Proof.
  intros [HW HH HR _] [Hx Hy].
  unfold GFX.rotate, physical, logical_to_physical, getRotation.
  unfold width, height in Hx, Hy. rewrite !sh110x_swap_swaps.
  destruct (rotation d =? 1) eqn:E1; [apply Z.eqb_eq in E1|apply Z.eqb_neq in E1].
  { rewrite E1 in *; simpl in *. now rewrite int16_t_small by lia. }
  destruct (rotation d =? 2) eqn:E2; [apply Z.eqb_eq in E2|apply Z.eqb_neq in E2].
  { rewrite E2 in *; simpl in *. now rewrite !int16_t_small by lia. }
  destruct (rotation d =? 3) eqn:E3; [apply Z.eqb_eq in E3|apply Z.eqb_neq in E3].
  { rewrite E3 in *; simpl in *. now rewrite int16_t_small by lia. }
  replace (rotation d) with 0 by lia. reflexivity.
Qed.

Lemma physical_range d x y :
  begun d -> inside d x y ->
  0 <= (physical d x y).1 < WIDTH d /\ 0 <= (physical d x y).2 < HEIGHT d.
Proof.
  intros [HW HH HR _] [Hx Hy].
  unfold physical, logical_to_physical. unfold width, height in Hx, Hy.
  destruct (rotation d =? 0) eqn:E0; [apply Z.eqb_eq in E0|apply Z.eqb_neq in E0].
  { rewrite E0 in *; simpl in *. lia. }
  destruct (rotation d =? 1) eqn:E1; [apply Z.eqb_eq in E1|apply Z.eqb_neq in E1].
  { rewrite E1 in *; simpl in *. lia. }
  destruct (rotation d =? 2) eqn:E2; [apply Z.eqb_eq in E2|apply Z.eqb_neq in E2].
  { rewrite E2 in *; simpl in *. lia. }
  replace (rotation d) with 3 in * by lia. simpl in *. lia.
Qed.

Lemma pixel_byte_allocated d x y :
  begun d -> inside d x y -> (pixel_byte d x y < length (buffer d))%nat.
Proof.
  intros Hd Hin. destruct (physical_range d x y Hd Hin) as [Hx Hy].
  destruct Hd as [HW HH _ Hlen].
  rewrite Hlen. unfold pixel_byte, byte_index, buffer_size.
  rewrite Z.quot_div_nonneg by lia.
  set (q := (physical d x y).2 / 8). set (P := (HEIGHT d + 7) / 8).
  assert (Hq : 0 <= q /\ q + 1 <= P) by (subst q P; lia).
  assert (0 <= q * WIDTH d) by (apply Z.mul_nonneg_nonneg; lia).
  assert (WIDTH d * (q + 1) <= WIDTH d * P)
    by (apply Z.mul_le_mono_nonneg_l; lia).
  apply Z2Nat.inj_lt; lia.
Qed.

Lemma pixel_bit_range d x y : 0 <= pixel_bit d x y < 8.
Proof. unfold pixel_bit, bit_index. lia. Qed.

(** The index and the mask that the source computes. *)
Lemma source_index d x' y' :
  0 <= y' -> Z.to_nat (x' + (y' ÷ 8) * WIDTH d) = byte_index (WIDTH d) x' y'.
Proof. intros. unfold byte_index. now rewrite Z.quot_div_nonneg by lia. Qed.

Lemma source_mask y' : Z.shiftl 1 (Z.land y' 7) = Z.shiftl 1 (bit_index y').
Proof. now rewrite land_7. Qed.

(** [getPixel] reads the bit of the specification. *)
Lemma getPixel_inside d x y :
  begun d -> inside d x y ->
  GFX.getPixel d x y = bit_at (buffer d) (pixel_byte d x y) (pixel_bit d x y).
Proof.
  intros Hd Hin. unfold GFX.getPixel.
  rewrite (proj2 (in_bounds_inside d x y) Hin), rotate_physical by assumption.
  destruct (physical_range d x y Hd Hin) as [Hx Hy].
  unfold pixel_byte, pixel_bit, bit_at.
  destruct (physical d x y) as [x' y']; simpl in *.
  rewrite source_index, source_mask by lia.
  rewrite land_bit_eqb by (unfold bit_index; lia).
  now rewrite negb_involutive.
Qed.

(** The effect of a byte update on every bit of the buffer. *)
Lemma update_bit_at d i f j k :
  (Z.to_nat i < length (buffer d))%nat -> 0 <= k < 8 ->
  bit_at (buffer (GFX.update d i f)) j k =
    if decide (j = Z.to_nat i)
    then Z.testbit (f (buffer d !!! Z.to_nat i)) k
    else bit_at (buffer d) j k.
Proof.
  intros Hi Hk. unfold GFX.update, bit_at. simpl.
  destruct (decide (j = Z.to_nat i)) as [->|Hne].
  - rewrite list_lookup_total_alter_eq by assumption.
    now apply uint8_t_testbit.
  - now rewrite list_lookup_total_alter_ne by congruence.
Qed.

(** The three read-modify-write operators act on one bit of the byte. *)
Lemma lor_bit v b k :
  0 <= b -> 0 <= k ->
  Z.testbit (Z.lor v (Z.shiftl 1 b)) k = if b =? k then true else Z.testbit v k.
Proof.
  intros. rewrite Z.lor_spec, shiftl_1_testbit by lia.
  destruct (b =? k), (Z.testbit v k); reflexivity.
Qed.

Lemma land_lnot_bit v b k :
  0 <= b -> 0 <= k ->
  Z.testbit (Z.land v (Z.lnot (Z.shiftl 1 b))) k =
    if b =? k then false else Z.testbit v k.
Proof.
  intros. rewrite Z.land_spec, Z.lnot_spec, shiftl_1_testbit by lia.
  destruct (b =? k), (Z.testbit v k); reflexivity.
Qed.

Lemma lxor_bit v b k :
  0 <= b -> 0 <= k ->
  Z.testbit (Z.lxor v (Z.shiftl 1 b)) k =
    if b =? k then negb (Z.testbit v k) else Z.testbit v k.
Proof.
  intros. rewrite Z.lxor_spec, shiftl_1_testbit by lia.
  destruct (b =? k), (Z.testbit v k); reflexivity.
Qed.

(** An update whose operator acts on bit [b] alone acts on that bit of that
    byte alone. *)
Lemma update_one_bit d i f g b j k :
  (Z.to_nat i < length (buffer d))%nat -> 0 <= k < 8 ->
  (forall v, Z.testbit (f v) k = if b =? k then g (Z.testbit v k)
                                 else Z.testbit v k) ->
  bit_at (buffer (GFX.update d i f)) j k =
    if decide (j = Z.to_nat i /\ k = b)
    then g (bit_at (buffer d) j k)
    else bit_at (buffer d) j k.
Proof.
  intros Hi Hk Hf. rewrite update_bit_at by assumption.
  destruct (decide (j = Z.to_nat i)) as [->|Hj].
  - rewrite Hf. fold (bit_at (buffer d) (Z.to_nat i) k).
    destruct (Z.eqb_spec b k) as [->|Hb].
    + now rewrite decide_True.
    + rewrite decide_False; [reflexivity|]. intros [_ ->]. now apply Hb.
  - rewrite decide_False; [reflexivity|]. now intros [? _].
Qed.

(** [drawPixel] on a point inside the bounds changes the bit of the
    specification as the colour says and no other bit of any byte. *)
Lemma drawPixel_bit_at d x y color j k :
  begun d -> inside d x y -> 0 <= k < 8 ->
  bit_at (buffer (GFX.drawPixel d x y color)) j k =
    if decide (j = pixel_byte d x y /\ k = pixel_bit d x y)
    then paint color (bit_at (buffer d) j k)
    else bit_at (buffer d) j k.
Proof.
  intros Hd Hin Hk. unfold GFX.drawPixel.
  rewrite (proj2 (in_bounds_inside d x y) Hin), rotate_physical by assumption.
  destruct (physical_range d x y Hd Hin) as [Hx Hy].
  pose proof (pixel_byte_allocated d x y Hd Hin) as Hlen.
  pose proof (pixel_bit_range d x y) as Hbit.
  unfold pixel_byte, pixel_bit in *. unfold paint.
  destruct (physical d x y) as [x' y']; simpl in *.
  rewrite <- (source_index d x' y') in * by lia.
  rewrite !source_mask.
  destruct (color =? SH110X_WHITE).
  { apply (update_one_bit d _ _ (fun _ => true)); try assumption.
    intros v. apply lor_bit; lia. }
  destruct (color =? SH110X_BLACK).
  { apply (update_one_bit d _ _ (fun _ => false)); try assumption.
    intros v. apply land_lnot_bit; lia. }
  destruct (color =? SH110X_INVERSE).
  { apply (update_one_bit d _ _ negb); try assumption.
    intros v. apply lxor_bit; lia. }
  destruct (decide _); reflexivity.
Qed.

(** [drawPixel] writes the buffer only. *)
Lemma drawPixel_frame d x y color :
  exists b, GFX.drawPixel d x y color = set_buffer d b /\
            length b = length (buffer d).
Proof.
  unfold GFX.drawPixel, GFX.update.
  destruct (GFX.in_bounds d x y); [destruct (GFX.rotate d x y) as [x' y']|];
    repeat match goal with |- context [if ?c then _ else _] => destruct c end;
    first [ eexists; split; [reflexivity|apply length_alter]
          | exists (buffer d); split; [now destruct d|reflexivity] ].
Qed.

Lemma set_buffer_begun d b :
  begun d -> length b = length (buffer d) -> begun (set_buffer d b).
Proof. intros [? ? ? Hl] Hb. split; simpl; try assumption. now rewrite Hb. Qed.

Lemma drawPixel_begun d x y color : begun d -> begun (GFX.drawPixel d x y color).
Proof.
  intros Hd. destruct (drawPixel_frame d x y color) as (b & -> & Hb).
  now apply set_buffer_begun.
Qed.

Lemma drawPixel_inside d x y color x0 y0 :
  inside (GFX.drawPixel d x0 y0 color) x y <-> inside d x y.
Proof. destruct (drawPixel_frame d x0 y0 color) as (b & -> & _). reflexivity. Qed.

Lemma drawPixel_pixel_byte d x y color x0 y0 :
  pixel_byte (GFX.drawPixel d x0 y0 color) x y = pixel_byte d x y.
Proof. destruct (drawPixel_frame d x0 y0 color) as (b & -> & _). reflexivity. Qed.

Lemma drawPixel_pixel_bit d x y color x0 y0 :
  pixel_bit (GFX.drawPixel d x0 y0 color) x y = pixel_bit d x y.
Proof. destruct (drawPixel_frame d x0 y0 color) as (b & -> & _). reflexivity. Qed.

(** Reading back the pixel just drawn. *)
Lemma getPixel_drawPixel d x y color :
  begun d -> inside d x y ->
  GFX.getPixel (GFX.drawPixel d x y color) x y = paint color (GFX.getPixel d x y).
Proof.
  intros Hd Hin.
  rewrite getPixel_inside
    by (try apply drawPixel_begun; try apply drawPixel_inside; assumption).
  rewrite drawPixel_pixel_byte, drawPixel_pixel_bit.
  rewrite drawPixel_bit_at by (auto using pixel_bit_range).
  rewrite decide_True by auto.
  now rewrite getPixel_inside.
Qed.

(** ** The pixel primitives of src/Adafruit_SH110X.cpp *)

(** C4.  For every point inside the logical bounds, under each of the four
    rotations: a pixel drawn white reads back true; drawn white and then
    black it reads back false; inverted twice it reads back what it read
    before. *)
Theorem C4_pixel_round_trip d x y :
  begun d -> inside d x y ->
  GFX.getPixel (GFX.drawPixel d x y SH110X_WHITE) x y = true /\
  GFX.getPixel
    (GFX.drawPixel (GFX.drawPixel d x y SH110X_WHITE) x y SH110X_BLACK) x y
    = false /\
  GFX.getPixel
    (GFX.drawPixel (GFX.drawPixel d x y SH110X_INVERSE) x y SH110X_INVERSE) x y
    = GFX.getPixel d x y.
Proof.
  intros Hd Hin. repeat split.
  - now rewrite getPixel_drawPixel.
  - now rewrite getPixel_drawPixel
      by (try apply drawPixel_begun; try apply drawPixel_inside; assumption).
  - rewrite getPixel_drawPixel
      by (try apply drawPixel_begun; try apply drawPixel_inside; assumption).
    rewrite getPixel_drawPixel by assumption.
    unfold paint; simpl. apply negb_involutive.
Qed.

Lemma C4_pixel_round_trip_witness :
  begun (rotated (blank 16 24 None) 1) /\
  inside (rotated (blank 16 24 None) 1) 20 3 /\
  GFX.getPixel
    (GFX.drawPixel (rotated (blank 16 24 None) 1) 20 3 SH110X_WHITE) 20 3
    = true.
Proof.
  set (d := rotated (blank 16 24 None) 1).
  assert (Hd : begun d) by (split; evaluate).
  assert (Hin : inside d 20 3) by evaluate.
  split; [exact Hd|]. split; [exact Hin|].
  exact (proj1 (C4_pixel_round_trip d 20 3 Hd Hin)).
Defined.

(** C5.  For every point inside the logical bounds the switch on the rotation
    in [drawPixel] and [getPixel] yields the physical point of the
    specification: [(x, y)] at rotation 0, [(W - y - 1, x)] at 90 degrees,
    [(W - x - 1, H - y - 1)] at 180 and [(y, H - x - 1)] at 270; that point
    lies in the physical rectangle; [getPixel] reads, and [drawPixel] changes,
    bit [y' mod 8] of byte [x' + (y' / 8) * W] and no other bit. *)
Theorem C5_coordinate_transform d x y :
  begun d -> inside d x y ->
  GFX.rotate d x y =
    logical_to_physical (WIDTH d) (HEIGHT d) (rotation d) x y /\
  (0 <= (physical d x y).1 < WIDTH d /\ 0 <= (physical d x y).2 < HEIGHT d) /\
  GFX.getPixel d x y = bit_at (buffer d) (pixel_byte d x y) (pixel_bit d x y) /\
  forall color j k, 0 <= k < 8 ->
    bit_at (buffer (GFX.drawPixel d x y color)) j k =
      if decide (j = pixel_byte d x y /\ k = pixel_bit d x y)
      then paint color (bit_at (buffer d) j k)
      else bit_at (buffer d) j k.
Proof.
  intros Hd Hin. split; [|split; [|split]].
  - now apply rotate_physical.
  - now apply physical_range.
  - now apply getPixel_inside.
  - intros color j k Hk. now apply drawPixel_bit_at.
Qed.

Lemma C5_coordinate_transform_witness :
  begun (rotated (blank 16 24 None) 3) /\
  inside (rotated (blank 16 24 None) 3) 20 3 /\
  GFX.rotate (rotated (blank 16 24 None) 3) 20 3 = (3, 3).
Proof.
  set (d := rotated (blank 16 24 None) 3).
  assert (Hd : begun d) by (split; evaluate).
  assert (Hin : inside d 20 3) by evaluate.
  split; [exact Hd|]. split; [exact Hin|].
  exact (proj1 (C5_coordinate_transform d 20 3 Hd Hin)).
Defined.

(** C6.  For every point outside the logical bounds, negative coordinates
    included, [drawPixel] returns the object as it was, framebuffer and dirty
    window alike, and [getPixel] returns false; neither has a failing
    outcome. *)
Theorem C6_out_of_bounds_ignored d x y color :
  ~ inside d x y ->
  GFX.drawPixel d x y color = d /\ GFX.getPixel d x y = false.
Proof.
  intros Hout. unfold GFX.drawPixel, GFX.getPixel.
  now rewrite in_bounds_outside.
Qed.

Lemma C6_out_of_bounds_ignored_witness :
  ~ inside (blank 128 64 None) (-1) 64 /\
  GFX.drawPixel (blank 128 64 None) (-1) 64 SH110X_WHITE = blank 128 64 None /\
  GFX.getPixel (blank 128 64 None) (-1) 64 = false.
Proof.
  set (d := blank 128 64 None).
  assert (Hout : ~ inside d (-1) 64) by evaluate.
  split; [exact Hout|].
  exact (C6_out_of_bounds_ignored d (-1) 64 SH110X_WHITE Hout).
Defined.

(** C10.  A colour other than [SH110X_BLACK], [SH110X_WHITE] and
    [SH110X_INVERSE] matches no case of the switch: [drawPixel] leaves every
    byte of the framebuffer, and the rest of the object, as it was, at every
    point. *)
Theorem C10_unknown_color_no_op d x y color :
  color <> SH110X_BLACK -> color <> SH110X_WHITE -> color <> SH110X_INVERSE ->
  GFX.drawPixel d x y color = d /\
  buffer (GFX.drawPixel d x y color) = buffer d.
Proof.
  intros Hb Hw Hi.
  assert (E : GFX.drawPixel d x y color = d).
  { unfold GFX.drawPixel.
    destruct (GFX.in_bounds d x y); [|reflexivity].
    destruct (GFX.rotate d x y) as [x' y'].
    apply Z.eqb_neq in Hb, Hw, Hi. now rewrite Hw, Hb, Hi. }
  now rewrite E.
Qed.

Lemma C10_unknown_color_no_op_witness :
  GFX.drawPixel (blank 128 64 None) 10 20 3 = blank 128 64 None /\
  buffer (GFX.drawPixel (blank 128 64 None) 10 20 3)
    = buffer (blank 128 64 None).
Proof.
  apply (C10_unknown_color_no_op (blank 128 64 None) 10 20 3); discriminate.
Defined.

(** [memset] over exactly the allocation leaves zeros only. *)
Lemma memset_all l c n :
  length l = Z.to_nat n -> GFX.memset l c n = replicate (Z.to_nat n) c.
Proof.
  intros Hl. unfold GFX.memset.
  rewrite <- Hl, Nat.min_id, drop_all. apply app_nil_r.
Qed.

Lemma clearDisplay_buffer d :
  begun d ->
  buffer (GFX.clearDisplay d) = replicate (Z.to_nat (buffer_size d)) 0.
Proof.
  intros [_ _ _ Hl]. unfold GFX.clearDisplay; simpl.
  now apply memset_all.
Qed.

Lemma clearDisplay_begun d : begun d -> begun (GFX.clearDisplay d).
Proof.
  intros Hd. pose proof (clearDisplay_buffer d Hd) as Hb.
  destruct Hd as [? ? ? Hl]. split; try assumption.
  rewrite Hb, length_replicate. reflexivity.
Qed.

(** After [clearDisplay] every byte of the framebuffer is zero, so
    [getPixel] returns false at every point, whatever the buffer held
    before. *)
Lemma clearDisplay_zeroes d :
  begun d ->
  buffer (GFX.clearDisplay d) = replicate (Z.to_nat (buffer_size d)) 0 /\
  (forall b, b ∈ buffer (GFX.clearDisplay d) -> b = 0) /\
  (forall x y, GFX.getPixel (GFX.clearDisplay d) x y = false).
Proof.
  intros Hd. pose proof (clearDisplay_buffer d Hd) as Hb.
  split; [exact Hb|]. split.
  - intros b. rewrite Hb. now intros [-> _]%elem_of_replicate.
  - intros x y.
    destruct (GFX.in_bounds (GFX.clearDisplay d) x y) eqn:E.
    + apply in_bounds_inside in E.
      pose proof (clearDisplay_begun d Hd) as Hd'.
      rewrite getPixel_inside by assumption.
      pose proof (pixel_byte_allocated _ x y Hd' E) as Hi.
      unfold bit_at. rewrite Hb in *. rewrite length_replicate in Hi.
      rewrite lookup_total_replicate_2 by assumption.
      apply Z.bits_0.
    + unfold GFX.getPixel. now rewrite E.
Qed.

(** C7.  After [clearDisplay] of the class that keeps a dirty window, every
    byte of the framebuffer is zero, so that [getPixel] returns false at every
    point, and the dirty window is the whole buffer rectangle
    [(0, 0, WIDTH - 1, HEIGHT - 1)], whatever buffer and window the object
    held before.  The zeroing is the [memset] of the source; the marking of
    the window is modelled from the specification. *)
Theorem C7_clearDisplay_zeroes_and_marks_dirty d :
  begun d ->
  buffer (GrayOLED_clearDisplay d) = replicate (Z.to_nat (buffer_size d)) 0 /\
  (forall b, b ∈ buffer (GrayOLED_clearDisplay d) -> b = 0) /\
  (forall x y, GFX.getPixel (GrayOLED_clearDisplay d) x y = false) /\
  window (GrayOLED_clearDisplay d) = (0, 0, WIDTH d - 1, HEIGHT d - 1) /\
  covers_full (GrayOLED_clearDisplay d) /\
  isEmpty (GrayOLED_clearDisplay d) = false.
Proof.
  intros Hd. destruct (clearDisplay_zeroes d Hd) as (Hb & Hz & Hg).
  split; [exact Hb|]. split; [exact Hz|]. split; [exact Hg|].
  split; [reflexivity|]. split.
  - unfold covers_full; simpl. lia.
  - destruct Hd as [HW HH _ _]. unfold isEmpty; simpl.
    apply orb_false_iff. split; rewrite Z.gtb_ltb; apply Z.ltb_ge; lia.
Qed.

Lemma C7_clearDisplay_zeroes_and_marks_dirty_witness :
  begun (markDirty (blank 16 24 None) 3 9) /\
  GFX.getPixel (GrayOLED_clearDisplay (markDirty (blank 16 24 None) 3 9)) 3 9
    = false /\
  window (GrayOLED_clearDisplay (markDirty (blank 16 24 None) 3 9))
    = (0, 0, 15, 23).
Proof.
  assert (Hd : begun (markDirty (blank 16 24 None) 3 9)) by (split; evaluate).
  split; [exact Hd|].
  destruct (C7_clearDisplay_zeroes_and_marks_dirty _ Hd)
    as (_ & _ & Hg & Hwin & _).
  split; [exact (Hg 3 9) | exact Hwin].
Defined.

(** ** The transfer loop *)

Lemma ops_snoc (bus : Log) o ok : ops (bus ++ [(o, ok)]) = ops bus ++ [o].
Proof. unfold ops. now rewrite fmap_app. Qed.

Lemma page_transfers_0 buf ptr m : 0 < m -> page_transfers buf ptr 0 m = [].
Proof.
  intros Hm. unfold page_transfers.
  replace ((0 + m - 1) / m) with 0; [reflexivity|].
  symmetry. apply Z.div_small. lia.
Qed.

Lemma transfer_count_step w m :
  0 < m -> 0 < w ->
  (w - Z.min w m + m - 1) / m = (w + m - 1) / m - 1.
Proof.
  intros Hm Hw. destruct (Z.le_gt_cases w m) as [Hle|Hgt].
  - rewrite Z.min_l by lia.
    replace (w - w + m - 1) with (m - 1) by lia.
    rewrite (Z.div_small (m - 1)) by lia.
    replace (w + m - 1) with (1 * m + (w - 1)) by lia.
    rewrite Z.div_add_l, (Z.div_small (w - 1)) by lia. reflexivity.
  - rewrite Z.min_r by lia.
    replace (w + m - 1) with (1 * m + (w - m + m - 1)) by lia.
    rewrite Z.div_add_l by lia. lia.
Qed.

Lemma transfer_count_pos w m : 0 < m -> 0 < w -> 0 < (w + m - 1) / m.
Proof.
  intros Hm Hw. apply Z.div_str_pos. lia.
Qed.

(** The first transfer takes [min w m] bytes and the rest carry what is
    left. *)
Lemma page_transfers_step buf ptr w m :
  0 < m -> 0 < w ->
  page_transfers buf ptr w m =
    I2C_write (read buf ptr (Z.min w m)) true [dc_byte]
    :: page_transfers buf (ptr + Z.min w m) (w - Z.min w m) m.
Proof.
  intros Hm Hw. unfold page_transfers.
  rewrite transfer_count_step by assumption.
  pose proof (transfer_count_pos w m Hm Hw) as Hn.
  rewrite (seqZ_cons 0) by assumption. rewrite fmap_cons.
  f_equal.
  - f_equal. f_equal; lia.
  - replace (Z.succ 0) with (1 + 0) by lia.
    rewrite <- fmap_add_seqZ, <- list_fmap_compose.
    replace (Z.pred ((w + m - 1) / m)) with ((w + m - 1) / m - 1) by lia.
    destruct (Z.le_gt_cases w m) as [Hle|Hgt].
    + replace ((w + m - 1) / m - 1) with 0; [reflexivity|].
      replace (w + m - 1) with (1 * m + (w - 1)) by lia.
      rewrite Z.div_add_l, (Z.div_small (w - 1)) by lia. reflexivity.
    + apply list_fmap_ext. intros _ k _. simpl.
      rewrite (Z.min_r w m) by lia. f_equal. f_equal; [|f_equal]; lia.
Qed.

(** With a cap [m] that is not zero the loop ends within [w] rounds, leaves
    [ptr] behind the bytes sent, and has issued the transfers of
    [page_transfers], whatever statuses the device returned. *)
Lemma transfer_ops fuel dev buf chunk m ptr w bus :
  0 < m -> 0 <= w <= 255 -> (Z.to_nat w <= fuel)%nat ->
  (forall r, 0 < r <= 255 -> chunk r = Z.min r m) ->
  exists bus',
    transfer fuel dev buf chunk ptr w bus = Returns (ptr + w, bus') /\
    ops bus' = ops bus ++ page_transfers buf ptr w m.
Proof.
  intros Hm Hw Hfuel Hchunk.
  revert ptr w bus Hw Hfuel.
  induction fuel as [|fuel IH]; intros ptr w bus Hw Hfuel.
  - assert (w = 0) as -> by lia. simpl. exists bus.
    rewrite Z.add_0_r, page_transfers_0, app_nil_r by assumption. auto.
  - simpl. destruct (Z.eqb_spec w 0) as [->|Hne].
    + exists bus.
      rewrite Z.add_0_r, page_transfers_0, app_nil_r by assumption. auto.
    + rewrite Hchunk by lia.
      rewrite (uint8_t_small (w - Z.min w m)) by lia.
      destruct (IH (ptr + Z.min w m) (w - Z.min w m)
                  (bus ++ [(I2C_write (read buf ptr (Z.min w m)) true [dc_byte],
                            ack dev (length bus))]))
        as (bus' & Hrun & Hops); [lia|lia|].
      exists bus'. split.
      * rewrite Hrun. do 2 f_equal. lia.
      * rewrite Hops, ops_snoc, (page_transfers_step buf ptr w m) by lia.
        now rewrite <- app_assoc.
Qed.

(** A cap of zero never ends the loop on a range that is not empty. *)
Lemma transfer_stuck fuel dev buf chunk ptr w bus :
  0 < w <= 255 -> chunk w = 0 ->
  transfer fuel dev buf chunk ptr w bus = OutOfFuel.
Proof.
  intros Hw Hc. revert ptr bus.
  induction fuel as [|fuel IH]; intros ptr bus; simpl;
    destruct (Z.eqb_spec w 0); try lia; [reflexivity|].
  rewrite Hc, Z.sub_0_r, Z.add_0_r, uint8_t_small by lia. apply IH.
Qed.

(** The payloads of the transfers, put end to end, are the bytes of the
    range. *)
Lemma read_split buf ptr a b :
  0 <= ptr -> 0 <= a -> 0 <= b ->
  read buf ptr a ++ read buf (ptr + a) b = read buf ptr (a + b).
Proof.
  intros Hp Ha Hb. unfold read.
  rewrite !Z2Nat.inj_add by lia.
  rewrite <- drop_drop. apply take_take_drop.
Qed.

Lemma page_transfers_payload buf ptr w m :
  0 < m -> 0 <= ptr -> 0 <= w ->
  concat (payload <$> page_transfers buf ptr w m) = read buf ptr w.
Proof.
  intros Hm Hp Hw. revert ptr Hp.
  pattern w. apply Zlt_0_ind; [clear w Hw|exact Hw].
  intros w IH Hw0 ptr Hp.
  destruct (Z.eqb_spec w 0) as [->|Hne].
  - rewrite page_transfers_0 by assumption. reflexivity.
  - rewrite page_transfers_step by lia. simpl.
    rewrite IH by lia.
    rewrite read_split by lia. f_equal. lia.
Qed.

Lemma page_transfers_length buf ptr w m :
  0 < m -> 0 <= w ->
  Z.of_nat (length (page_transfers buf ptr w m)) = (w + m - 1) / m.
Proof.
  intros Hm Hw. unfold page_transfers.
  rewrite length_fmap, length_seqZ.
  apply Z2Nat.id. apply Z.div_pos; lia.
Qed.

Lemma read_length buf ptr len :
  0 <= ptr -> 0 <= len -> (Z.to_nat (ptr + len) <= length buf)%nat ->
  Z.of_nat (length (read buf ptr len)) = len.
Proof.
  intros Hp Hl Hb. unfold read.
  rewrite length_take, length_drop. lia.
Qed.

(** ** [display] of part_000 *)

Lemma arduino_min a b : Arduino.min a b = Z.min a b.
Proof. unfold Arduino.min. destruct (Z.ltb_spec a b); lia. Qed.

Lemma arduino_max a b : Arduino.max a b = Z.max a b.
Proof.
  unfold Arduino.max. rewrite Z.gtb_ltb. destruct (Z.ltb_spec b a); lia.
Qed.

Lemma limit_uint16 dev : uint8_t (uint16_t (maxBufferSize dev - 1)) = limit dev.
Proof. apply uint8_t_uint16_t. Qed.

(** One round of the page loop: the page-select command of the page, then the
    columns of the window in transfers capped by the limit. *)
Lemma display_page_ops fuel dev d p bus :
  flushable d dev -> dirty_inside d -> 0 <= p <= 255 ->
  (Z.to_nat (window_x2 d - window_x1 d + 1) <= fuel)%nat ->
  exists bus',
    GrayOLED.display_page fuel dev d (WIDTH d)
      (uint16_t (maxBufferSize dev - 1)) (window_x1 d) (window_x2 d) p bus
      = Returns bus' /\
    ops bus' = ops bus ++ page_ops d (limit dev) p.
Proof.
  intros [_ HW _ _ Hm] (Hx1 & Hx2 & _) Hp Hfuel.
  unfold GrayOLED.display_page.
  rewrite (uint16_t_small p), (uint16_t_small (WIDTH d)) by lia.
  rewrite (uint8_t_small (WIDTH d - window_x1 d)) by lia.
  replace (WIDTH d - window_x1 d - (WIDTH d - 1 - window_x2 d))
    with (window_x2 d - window_x1 d + 1) by lia.
  rewrite (uint8_t_small (window_x2 d - window_x1 d + 1)) by lia.
  match goal with
  | |- context [transfer fuel dev ?buf ?chunk ?ptr ?w ?b] =>
      destruct (transfer_ops fuel dev buf chunk (limit dev) ptr w b)
        as (bus' & Hrun & Hops)
  end; try assumption; try lia.
  { intros r _. now rewrite arduino_min, limit_uint16. }
  exists bus'. split.
  - rewrite Hrun. reflexivity.
  - rewrite Hops. unfold i2c_write; simpl. rewrite ops_snoc.
    unfold page_ops, page_select. now rewrite <- app_assoc.
Qed.

(** A loop whose every round returns and appends to the log returns and has
    appended the rounds' operations in order. *)
Lemma for_each_ops (body : Z -> Log -> outcome Log) (g : Z -> list BusOp) ps :
  (forall p bus, p ∈ ps ->
     exists bus', body p bus = Returns bus' /\ ops bus' = ops bus ++ g p) ->
  forall bus,
  exists bus', for_each body ps bus = Returns bus' /\
               ops bus' = ops bus ++ concat (g <$> ps).
Proof.
  induction ps as [|p ps IH]; intros Hbody bus; simpl.
  - exists bus. now rewrite app_nil_r.
  - destruct (Hbody p bus) as (bus1 & Hrun & Hops); [left|].
    rewrite Hrun. simpl.
    destruct (IH (fun q b Hq => Hbody q b (list_elem_of_further _ _ _ Hq)) bus1)
      as (bus2 & Hrun2 & Hops2).
    exists bus2. split; [exact Hrun2|].
    now rewrite Hops2, Hops, <- app_assoc.
Qed.

(** The values [display] computes from a window inside the buffer. *)
Lemma display_pages d dev :
  flushable d dev -> uint8_t ((HEIGHT d + 7) ÷ 8) = pages_of d.
Proof.
  intros [_ _ HH _ _]. unfold pages_of.
  rewrite Z.quot_div_nonneg by lia. apply uint8_t_small. lia.
Qed.

Lemma display_first_page d dev :
  flushable d dev -> dirty_inside d ->
  uint8_t (window_y1 d ÷ 8) = window_y1 d / 8.
Proof.
  intros [_ _ HH _ _] (_ & _ & Hy1 & Hy2).
  rewrite Z.quot_div_nonneg by lia. apply uint8_t_small. lia.
Qed.

Lemma display_page_start d dev :
  flushable d dev -> dirty_inside d ->
  Arduino.min (uint8_t (WIDTH d)) (uint8_t (window_x1 d)) = window_x1 d.
Proof.
  intros [_ HW _ _ _] (Hx1 & Hx2 & _).
  rewrite arduino_min, !uint8_t_small by lia. lia.
Qed.

Lemma display_page_end d dev :
  flushable d dev -> dirty_inside d ->
  uint8_t (Arduino.max 0 (window_x2 d)) = window_x2 d.
Proof.
  intros [_ HW _ _ _] (Hx1 & Hx2 & _).
  rewrite arduino_max, Z.max_r, uint8_t_small by lia. reflexivity.
Qed.

(** The whole flush of a window inside the buffer: the call returns, the
    window is the sentinel, and the log has grown by [flush_ops]. *)
Lemma display_ops fuel d dev bus :
  flushable d dev -> dirty_inside d ->
  (Z.to_nat (window_x2 d - window_x1 d + 1) <= fuel)%nat ->
  exists bus',
    GrayOLED.display fuel d bus = Returns (reset d, bus') /\
    ops bus' = ops bus ++ flush_ops d (limit dev).
Proof.
  intros Hd Hw Hfuel. unfold GrayOLED.display.
  rewrite (display_pages d dev), (display_first_page d dev),
    (display_page_start d dev), (display_page_end d dev) by assumption.
  rewrite (flushable_dev d dev Hd). simpl.
  rewrite (uint8_t_small (WIDTH d)) by (destruct Hd; lia).
  destruct (for_each_ops
              (GrayOLED.display_page fuel dev d (WIDTH d)
                 (uint16_t (maxBufferSize dev - 1)) (window_x1 d) (window_x2 d))
              (page_ops d (limit dev))
              (page_range (window_y1 d / 8) (pages_of d)))
    with (bus := (bus ++ [(I2C_setSpeed (i2c_preclk d), ack dev (length bus))]))
    as (bus1 & Hrun & Hops).
  { intros p b Hp. apply display_page_ops; try assumption.
    unfold page_range in Hp. apply elem_of_seqZ in Hp.
    destruct Hd as [_ _ HH _ _]. destruct Hw as (_ & _ & Hy1 & Hy2).
    unfold pages_of in Hp. lia. }
  rewrite Hrun. simpl. eexists. split; [reflexivity|].
  rewrite ops_snoc, Hops, ops_snoc. unfold flush_ops.
  rewrite <- !app_assoc. reflexivity.
Qed.

(** Whatever [display] returns, it returns the object with the window reset
    and nothing else changed. *)
Lemma display_returns_reset fuel d bus d1 bus1 :
  GrayOLED.display fuel d bus = Returns (d1, bus1) -> d1 = reset d.
Proof.
  unfold GrayOLED.display.
  destruct (i2c_dev d) as [dev|]; simpl; [|discriminate].
  match goal with |- context [for_each ?b ?ps ?s] => destruct (for_each b ps s) end;
    simpl; intros H; inversion H; reflexivity.
Qed.

Lemma writes_snoc_setSpeed (bus : Log) hz ok :
  writes (bus ++ [(I2C_setSpeed hz, ok)]) = writes bus.
Proof.
  unfold writes. rewrite ops_snoc, List.filter_app. simpl. apply app_nil_r.
Qed.

(** The flush of an empty window: no round of the page loop. *)
Lemma display_sentinel fuel d dev bus :
  i2c_dev d = Some dev -> 0 < HEIGHT d <= 1024 -> window d = sentinel ->
  GrayOLED.display fuel d bus =
    Returns (reset d,
             (i2c_setSpeed dev (i2c_postclk d)
                (i2c_setSpeed dev (i2c_preclk d) bus).1).1).
Proof.
  intros Hdev HH Hwin. unfold window, sentinel in Hwin.
  injection Hwin as Hx1 Hy1 Hx2 Hy2.
  unfold GrayOLED.display. rewrite Hdev, Hy1. simpl.
  unfold page_range. rewrite seqZ_nil; [reflexivity|].
  rewrite Z.quot_div_nonneg by lia.
  rewrite (uint8_t_small ((HEIGHT d + 7) / 8)) by lia.
  change (uint8_t (1024 ÷ 8)) with 128. lia.
Qed.

(** C8.  With the dirty window in the empty sentinel state [display] issues
    no write on the bus, neither a page-select command nor a data transfer:
    the log grows by the two clock settings only.  Hence a second [display]
    right after a first one, with no pixel written in between, adds no write
    to those of the first. *)
Theorem C8_empty_flush_is_silent fuel d dev bus :
  i2c_dev d = Some dev -> 0 < HEIGHT d <= 1024 ->
  (window d = sentinel ->
   exists bus',
     GrayOLED.display fuel d bus = Returns (reset d, bus') /\
     ops bus' = ops bus ++ [I2C_setSpeed (i2c_preclk d);
                            I2C_setSpeed (i2c_postclk d)] /\
     writes bus' = writes bus) /\
  (forall d1 bus1,
     GrayOLED.display fuel d bus = Returns (d1, bus1) ->
     forall fuel', exists bus2,
       GrayOLED.display fuel' d1 bus1 = Returns (d1, bus2) /\
       writes bus2 = writes bus1).
Proof.
  intros Hdev HH. split.
  - intros Hwin. eexists.
    split; [apply (display_sentinel fuel d dev bus); assumption|].
    unfold i2c_setSpeed; simpl. split.
    + rewrite !ops_snoc, <- app_assoc. reflexivity.
    + now rewrite !writes_snoc_setSpeed.
  - intros d1 bus1 Hrun fuel'.
    apply display_returns_reset in Hrun. subst d1.
    eexists. split.
    + rewrite (display_sentinel fuel' (reset d) dev bus1)
        by (try assumption; reflexivity).
      reflexivity.
    + unfold i2c_setSpeed; simpl. now rewrite !writes_snoc_setSpeed.
Qed.

Lemma C8_empty_flush_is_silent_witness :
  exists bus',
    GrayOLED.display 0 (blank 128 64 (Some (reliable 32))) []
      = Returns (reset (blank 128 64 (Some (reliable 32))), bus') /\
    writes bus' = [].
Proof.
  destruct (C8_empty_flush_is_silent 0 (blank 128 64 (Some (reliable 32)))
              (reliable 32) []) as [H _].
  - reflexivity.
  - simpl. lia.
  - destruct (H eq_refl) as (bus' & Hrun & _ & Hw).
    exists bus'. split; [exact Hrun | exact Hw].
Defined.

(** C9.  Neither [display] tests the device pointer before it calls
    [i2c_dev->maxBufferSize()]: on an object without I2C device, such as one
    built by an SPI constructor, the call dereferences the null pointer, the
    test [if (i2c_dev)] that follows it notwithstanding. *)
Theorem C9_null_device_dereferenced fuel d bus :
  GrayOLED.display fuel (attach d None) bus = NullDeref /\
  GFX.display fuel (attach d None) bus = NullDeref.
Proof. split; reflexivity. Qed.

(** ** Page-select commands and data transfers of a flush *)

Lemma page_selects_transfers buf ptr w m :
  page_selects (page_transfers buf ptr w m) = [].
Proof.
  unfold page_transfers, page_selects.
  induction (seqZ 0 ((w + m - 1) / m)) as [|k ks IH]; [reflexivity|].
  rewrite fmap_cons. simpl.
  destruct (read buf (ptr + k * m) (Z.min (w - k * m) m))
    as [|? [|? [|? [|? [|? ?]]]]]; exact IH.
Qed.

Lemma data_transfers_transfers buf ptr w m :
  data_transfers (page_transfers buf ptr w m) = page_transfers buf ptr w m.
Proof.
  unfold page_transfers, data_transfers.
  induction (seqZ 0 ((w + m - 1) / m)) as [|k ks IH]; [reflexivity|].
  rewrite fmap_cons. simpl. now rewrite IH.
Qed.

Lemma page_selects_page_ops d m p :
  page_selects (page_ops d m p) = [page_select p (window_x1 d)].
Proof.
  unfold page_ops. change (page_selects (?o :: ?l)) with
    (if is_page_select o then o :: page_selects l else page_selects l).
  simpl. now rewrite page_selects_transfers.
Qed.

Lemma data_transfers_page_ops d m p :
  data_transfers (page_ops d m p) =
    page_transfers (buffer d) (p * WIDTH d + window_x1 d)
      (window_x2 d - window_x1 d + 1) m.
Proof.
  unfold page_ops. change (data_transfers (?o :: ?l)) with
    (if is_data_transfer o then o :: data_transfers l else data_transfers l).
  simpl. apply data_transfers_transfers.
Qed.

Lemma page_selects_app l1 l2 :
  page_selects (l1 ++ l2) = page_selects l1 ++ page_selects l2.
Proof. apply List.filter_app. Qed.

Lemma page_selects_concat d m ps :
  page_selects (concat (page_ops d m <$> ps)) =
    (fun p => page_select p (window_x1 d)) <$> ps.
Proof.
  induction ps as [|p ps IH]; [reflexivity|].
  rewrite fmap_cons, List.concat_cons.
  now rewrite page_selects_app, IH, page_selects_page_ops.
Qed.

Lemma page_selects_flush_ops d m :
  page_selects (flush_ops d m) =
    (fun p => page_select p (window_x1 d))
      <$> page_range (window_y1 d / 8) (pages_of d).
Proof.
  unfold flush_ops.
  change (page_selects (I2C_setSpeed ?hz :: ?l)) with (page_selects l).
  rewrite page_selects_app, page_selects_concat.
  apply app_nil_r.
Qed.

(** The columns of a window inside the buffer are inside the allocation. *)
Lemma columns_allocated d dev p :
  flushable d dev -> dirty_inside d -> 0 <= p < pages_of d ->
  (Z.to_nat (p * WIDTH d + window_x2 d + 1) <= length (buffer d))%nat.
Proof.
  intros [_ HW HH Hlen _] (Hx1 & Hx2 & _) Hp.
  rewrite Hlen. unfold buffer_size, pages_of in *.
  rewrite Z.quot_div_nonneg by lia.
  set (P := (HEIGHT d + 7) / 8) in *.
  assert (WIDTH d * (p + 1) <= WIDTH d * P)
    by (apply Z.mul_le_mono_nonneg_l; lia).
  assert (0 <= p * WIDTH d) by (apply Z.mul_nonneg_nonneg; lia).
  apply Z2Nat.inj_le; lia.
Qed.

Lemma columns_length d dev p :
  flushable d dev -> dirty_inside d -> 0 <= p < pages_of d ->
  Z.of_nat (length (columns d p (window_x1 d) (window_x2 d)))
    = window_x2 d - window_x1 d + 1.
Proof.
  intros Hd Hw Hp. pose proof (columns_allocated d dev p Hd Hw Hp) as Hlen.
  destruct Hd as [_ HW _ _ _]. destruct Hw as (Hx1 & Hx2 & _).
  assert (0 <= p * WIDTH d) by (apply Z.mul_nonneg_nonneg; lia).
  unfold columns. apply read_length; lia.
Qed.

Lemma page_payload d dev p :
  flushable d dev -> dirty_inside d -> 0 <= p ->
  concat (payload <$> data_transfers (page_ops d (limit dev) p))
    = columns d p (window_x1 d) (window_x2 d).
Proof.
  intros [_ HW _ _ Hm] (Hx1 & Hx2 & _) Hp.
  assert (0 <= p * WIDTH d) by (apply Z.mul_nonneg_nonneg; lia).
  rewrite data_transfers_page_ops. unfold columns.
  apply page_transfers_payload; lia.
Qed.

(** ** The flush of src/unnamed/part_000 *)

(** C1, as the code has it.  [display] drops the status of every bus write.
    For a window inside the buffer, whatever statuses the device returns, the
    call returns, it has issued every page-select command and every data
    transfer of the flush, the same operations as on a device with any other
    statuses, and it has reset the dirty window to the empty sentinel. *)
Theorem C1_flush_ignores_write_status fuel d dev ack' bus :
  flushable d dev -> dirty_inside d ->
  (Z.to_nat (window_x2 d - window_x1 d + 1) <= fuel)%nat ->
  exists bus1 bus2,
    GrayOLED.display fuel d bus = Returns (reset d, bus1) /\
    GrayOLED.display fuel (attach d (Some (with_ack dev ack'))) bus
      = Returns (reset (attach d (Some (with_ack dev ack'))), bus2) /\
    ops bus1 = ops bus ++ flush_ops d (limit dev) /\
    ops bus2 = ops bus1 /\
    window (reset d) = sentinel /\
    isEmpty (reset d) = true.
Proof.
  intros Hd Hw Hfuel.
  destruct (display_ops fuel d dev bus Hd Hw Hfuel) as (bus1 & Hrun1 & Hops1).
  destruct (display_ops fuel (attach d (Some (with_ack dev ack')))
              (with_ack dev ack') bus) as (bus2 & Hrun2 & Hops2).
  { destruct Hd. split; try assumption. reflexivity. }
  { exact Hw. }
  { exact Hfuel. }
  exists bus1, bus2. repeat split; try assumption.
  rewrite Hops1, Hops2. reflexivity.
Qed.

Lemma C1_flush_ignores_write_status_witness :
  flushable (dirty_row (Some (failing_at 5 2))) (failing_at 5 2) /\
  dirty_inside (dirty_row (Some (failing_at 5 2))) /\
  exists bus1,
    GrayOLED.display 10 (dirty_row (Some (failing_at 5 2))) []
      = Returns (reset (dirty_row (Some (failing_at 5 2))), bus1).
Proof.
  assert (Hd : flushable (dirty_row (Some (failing_at 5 2))) (failing_at 5 2))
    by (split; evaluate).
  assert (Hw : dirty_inside (dirty_row (Some (failing_at 5 2))))
    by evaluate.
  split; [exact Hd|]. split; [exact Hw|].
  destruct (C1_flush_ignores_write_status 10
              (dirty_row (Some (failing_at 5 2)))
              (failing_at 5 2) (fun _ => true) [] Hd Hw)
    as (bus1 & _ & Hrun & _).
  - simpl. lia.
  - exists bus1. exact Hrun.
Defined.

(** C1, as the specification has it, fails.  On a 16 x 16 display with columns
    3..12 of row 9 dirty and a device that takes four bytes at a time, the
    first data transfer fails (status [false]); [display] still issues the two
    transfers after it, returns no status, and leaves the dirty window
    empty. *)
Lemma C1_counterexample :
  GrayOLED.display 10
    (dirty_row (Some (failing_at 5 2))) []
  = Returns
      (reset (dirty_row (Some (failing_at 5 2))),
       [(I2C_setSpeed 400000, true);
        (I2C_write [0; 177; 16; 3] true [], true);
        (I2C_write [0; 0; 0; 0] true [64], false);
        (I2C_write [0; 0; 0; 0] true [64], true);
        (I2C_write [0; 0] true [64], true);
        (I2C_setSpeed 100000, true)]) /\
  isEmpty (reset (dirty_row (Some (failing_at 5 2))))
    = true.
Proof. split; reflexivity. Qed.

(** ** The flush in the whole range of its eight-bit variables *)

Lemma flushable_drivable d dev : flushable d dev -> drivable d dev.
Proof. intros [Hdev HW HH Hlen Hm]. split; try assumption. lia. Qed.

Lemma drivable_page_ops fuel dev d p bus :
  drivable d dev -> dirty_inside d -> 0 <= p <= 255 ->
  (Z.to_nat (window_x2 d - window_x1 d + 1) <= fuel)%nat ->
  exists bus',
    GrayOLED.display_page fuel dev d (WIDTH d)
      (uint16_t (maxBufferSize dev - 1)) (window_x1 d) (window_x2 d) p bus
      = Returns bus' /\
    ops bus' = ops bus ++ page_ops d (limit dev) p.
Proof.
  intros [_ HW _ _ Hm] (Hx1 & Hx2 & _) Hp Hfuel.
  unfold GrayOLED.display_page.
  rewrite (uint16_t_small p), (uint16_t_small (WIDTH d)) by lia.
  rewrite (uint8_t_small (WIDTH d - window_x1 d)) by lia.
  replace (WIDTH d - window_x1 d - (WIDTH d - 1 - window_x2 d))
    with (window_x2 d - window_x1 d + 1) by lia.
  rewrite (uint8_t_small (window_x2 d - window_x1 d + 1)) by lia.
  match goal with
  | |- context [transfer fuel dev ?buf ?chunk ?ptr ?w ?b] =>
      destruct (transfer_ops fuel dev buf chunk (limit dev) ptr w b)
        as (bus' & Hrun & Hops)
  end; try assumption; try lia.
  { intros r _. now rewrite arduino_min, limit_uint16. }
  exists bus'. split.
  - rewrite Hrun. reflexivity.
  - rewrite Hops. unfold i2c_write; simpl. rewrite ops_snoc.
    unfold page_ops, page_select. now rewrite <- app_assoc.
Qed.

Lemma drivable_page_range d dev p :
  drivable d dev -> dirty_inside d ->
  p ∈ page_range (window_y1 d / 8) (pages_of d) ->
  window_y1 d / 8 <= p < pages_of d /\ 0 <= p <= 254.
Proof.
  intros [_ _ HH _ _] (_ & _ & Hy1 & Hy2) Hp.
  unfold page_range in Hp. apply elem_of_seqZ in Hp.
  unfold pages_of in *. lia.
Qed.

(** The whole flush of a window inside the buffer, in that range. *)
Lemma drivable_display_ops fuel d dev bus :
  drivable d dev -> dirty_inside d ->
  (Z.to_nat (window_x2 d - window_x1 d + 1) <= fuel)%nat ->
  exists bus',
    GrayOLED.display fuel d bus = Returns (reset d, bus') /\
    ops bus' = ops bus ++ flush_ops d (limit dev).
Proof.
  intros Hd Hw Hfuel.
  pose proof (drivable_dev d dev Hd) as Hdev.
  pose proof (drivable_width d dev Hd) as HW.
  pose proof (drivable_height d dev Hd) as HH.
  pose proof Hw as (Hx1 & Hx2 & Hy1 & Hy2).
  unfold GrayOLED.display. rewrite Hdev. simpl.
  rewrite arduino_min, arduino_max, (Z.max_r 0 (window_x2 d)) by lia.
  rewrite !(uint8_t_small (WIDTH d)), (uint8_t_small (window_x1 d)),
    (uint8_t_small (window_x2 d)) by lia.
  rewrite (Z.min_r (WIDTH d) (window_x1 d)) by lia.
  rewrite !Z.quot_div_nonneg by lia.
  rewrite (uint8_t_small ((HEIGHT d + 7) / 8)) by lia.
  rewrite (uint8_t_small (window_y1 d / 8)) by lia.
  fold (pages_of d).
  destruct (for_each_ops
              (GrayOLED.display_page fuel dev d (WIDTH d)
                 (uint16_t (maxBufferSize dev - 1)) (window_x1 d) (window_x2 d))
              (page_ops d (limit dev))
              (page_range (window_y1 d / 8) (pages_of d)))
    with (bus := (bus ++ [(I2C_setSpeed (i2c_preclk d), ack dev (length bus))]))
    as (bus1 & Hrun & Hops).
  { intros p b Hp. apply drivable_page_ops; try assumption.
    destruct (drivable_page_range d dev p Hd Hw Hp). lia. }
  rewrite Hrun. simpl. eexists. split; [reflexivity|].
  rewrite ops_snoc, Hops, ops_snoc. unfold flush_ops.
  rewrite <- !app_assoc. reflexivity.
Qed.

Lemma drivable_columns_allocated d dev p :
  drivable d dev -> dirty_inside d -> 0 <= p < pages_of d ->
  (Z.to_nat (p * WIDTH d + window_x2 d + 1) <= length (buffer d))%nat.
Proof.
  intros [_ HW HH Hlen _] (Hx1 & Hx2 & _) Hp.
  rewrite Hlen. unfold buffer_size, pages_of in *.
  rewrite Z.quot_div_nonneg by lia.
  set (P := (HEIGHT d + 7) / 8) in *.
  assert (WIDTH d * (p + 1) <= WIDTH d * P)
    by (apply Z.mul_le_mono_nonneg_l; lia).
  assert (0 <= p * WIDTH d) by (apply Z.mul_nonneg_nonneg; lia).
  apply Z2Nat.inj_le; lia.
Qed.

Lemma drivable_columns_length d dev p :
  drivable d dev -> dirty_inside d -> 0 <= p < pages_of d ->
  Z.of_nat (length (columns d p (window_x1 d) (window_x2 d)))
    = window_x2 d - window_x1 d + 1.
Proof.
  intros Hd Hw Hp.
  pose proof (drivable_columns_allocated d dev p Hd Hw Hp) as Hlen.
  destruct Hd as [_ HW _ _ _]. destruct Hw as (Hx1 & Hx2 & _).
  assert (0 <= p * WIDTH d) by (apply Z.mul_nonneg_nonneg; lia).
  unfold columns. apply read_length; lia.
Qed.

Lemma drivable_page_payload d dev p :
  drivable d dev -> dirty_inside d -> 0 <= p ->
  concat (payload <$> data_transfers (page_ops d (limit dev) p))
    = columns d p (window_x1 d) (window_x2 d).
Proof.
  intros [_ HW _ _ Hm] (Hx1 & Hx2 & _) Hp.
  assert (0 <= p * WIDTH d) by (apply Z.mul_nonneg_nonneg; lia).
  rewrite data_transfers_page_ops. unfold columns.
  apply page_transfers_payload; lia.
Qed.

(** C2.  [display] computes [first_page = y1 / 8] and a [last_page], but its
    page loop is [for (p = first_page; p < pages; p++)]: the only use of
    [last_page], the line [pages = min(pages, last_page)], is commented out.
    So on a display with an I2C device of non-zero limit, up to 255 columns
    and 2040 rows, and a non-empty dirty window inside the buffer, the flush
    sends, for each page of [first_page, ..., pages - 1] in turn, one
    page-select command and the bytes of columns [x1..x2] of that page, where
    [pages = ceil (HEIGHT / 8)] is the number of pages of the buffer.
    Whenever the window ends above the last page, that is
    [ceil ((y2 + 1) / 8) < pages], the flush issues more page-select commands
    than the [last_page - first_page] of the claim and writes page
    [pages - 1], which lies outside [first_page, last_page). *)
Theorem C2_flush_runs_past_last_page fuel d dev bus :
  drivable d dev -> dirty_inside d ->
  (Z.to_nat (window_x2 d - window_x1 d + 1) <= fuel)%nat ->
  exists bus' sent,
    GrayOLED.display fuel d bus = Returns (reset d, bus') /\
    ops bus' = ops bus ++ sent /\
    sent = I2C_setSpeed (i2c_preclk d)
           :: concat (page_ops d (limit dev)
                        <$> seqZ (window_y1 d / 8)
                              (pages_of d - window_y1 d / 8))
           ++ [I2C_setSpeed (i2c_postclk d)] /\
    page_selects sent =
      (fun p => page_select p (window_x1 d))
        <$> seqZ (window_y1 d / 8) (pages_of d - window_y1 d / 8) /\
    Z.of_nat (length (page_selects sent)) = pages_of d - window_y1 d / 8 /\
    (forall p, window_y1 d / 8 <= p < pages_of d ->
       page_selects (page_ops d (limit dev) p)
         = [page_select p (window_x1 d)] /\
       concat (payload <$> data_transfers (page_ops d (limit dev) p))
         = columns d p (window_x1 d) (window_x2 d) /\
       Z.of_nat (length (columns d p (window_x1 d) (window_x2 d)))
         = window_x2 d - window_x1 d + 1) /\
    ((window_y2 d + 1 + 7) / 8 < pages_of d ->
       (window_y2 d + 1 + 7) / 8 - window_y1 d / 8
         < Z.of_nat (length (page_selects sent)) /\
       page_select (pages_of d - 1) (window_x1 d) ∈ page_selects sent /\
       ~ (window_y1 d / 8 <= pages_of d - 1 < (window_y2 d + 1 + 7) / 8)).
Proof.
  intros Hd Hw Hfuel.
  destruct (drivable_display_ops fuel d dev bus Hd Hw Hfuel)
    as (bus' & Hrun & Hops).
  pose proof (drivable_height d dev Hd) as HH.
  assert (Hn : Z.of_nat (length (page_selects (flush_ops d (limit dev))))
               = pages_of d - window_y1 d / 8).
  { rewrite page_selects_flush_ops, length_fmap. unfold page_range.
    rewrite length_seqZ. apply Z2Nat.id.
    destruct Hw as (_ & _ & Hy1 & Hy2). unfold pages_of. lia. }
  exists bus', (flush_ops d (limit dev)).
  split; [exact Hrun|]. split; [exact Hops|]. split; [reflexivity|].
  split; [apply page_selects_flush_ops|]. split; [exact Hn|]. split.
  - intros p Hp.
    assert (0 <= p) by (destruct Hw as (_ & _ & Hy1 & _); lia).
    split; [apply page_selects_page_ops|]. split.
    + now apply drivable_page_payload.
    + apply (drivable_columns_length d dev); try assumption. lia.
  - intros Hlast. rewrite Hn. split; [lia|]. split; [|lia].
    rewrite page_selects_flush_ops.
    apply list_elem_of_fmap. exists (pages_of d - 1). split; [reflexivity|].
    unfold page_range. apply elem_of_seqZ.
    destruct Hw as (_ & _ & Hy1 & Hy2). unfold pages_of in *. lia.
Qed.

Lemma C2_flush_runs_past_last_page_witness :
  drivable (markDirty (blank 128 64 (Some (reliable 32))) 10 20) (reliable 32)
  /\ dirty_inside (markDirty (blank 128 64 (Some (reliable 32))) 10 20) /\
  exists bus' sent,
    GrayOLED.display 1 (markDirty (blank 128 64 (Some (reliable 32))) 10 20) []
      = Returns (reset (markDirty (blank 128 64 (Some (reliable 32))) 10 20),
                 bus') /\
    ops bus' = sent /\
    Z.of_nat (length (page_selects sent)) = 6 /\
    page_select 7 10 ∈ page_selects sent.
Proof.
  set (d := markDirty (blank 128 64 (Some (reliable 32))) 10 20).
  assert (Hd : drivable d (reliable 32))
    by (split; evaluate).
  assert (Hw : dirty_inside d) by evaluate.
  split; [exact Hd|]. split; [exact Hw|].
  destruct (C2_flush_runs_past_last_page 1 d (reliable 32) [] Hd Hw)
    as (bus' & sent & Hrun & Hops & _ & _ & Hn & _ & Hpast).
  - simpl. lia.
  - exists bus', sent. split; [exact Hrun|]. split; [exact Hops|].
    split; [exact Hn|].
    destruct Hpast as (_ & Hin & _); [vm_compute; reflexivity | exact Hin].
Defined.

(** The flush of a single dirty pixel, run: on a 128 x 64 display with the
    pixel (10, 20) dirty and a device of 32 bytes, [first_page] is 2 and the
    [last_page] of the specification is [ceil (21 / 8) = 3]; [display] sends
    six page-select commands, for pages 2 to 7. *)
Lemma display_single_pixel_sends_six_pages :
  exists bus',
    GrayOLED.display 1 (markDirty (blank 128 64 (Some (reliable 32))) 10 20) []
      = Returns (reset (markDirty (blank 128 64 (Some (reliable 32))) 10 20),
                 bus') /\
    page_selects (ops bus') =
      [page_select 2 10; page_select 3 10; page_select 4 10;
       page_select 5 10; page_select 6 10; page_select 7 10] /\
    length (page_selects (ops bus')) <> 1%nat /\
    ~ (2 <= 7 < (20 + 1 + 7) / 8).
Proof.
  eexists. split; [vm_compute; reflexivity|].
  split; [vm_compute; reflexivity|].
  split; [vm_compute; discriminate|].
  vm_compute. intros [_ H]. discriminate H.
Qed.

(** Transfer [k] of a range, its offset and its bytes. *)
Lemma page_transfers_lookup buf ptr w m k :
  0 < m -> 0 <= k < (w + m - 1) / m ->
  page_transfers buf ptr w m !! Z.to_nat k =
    Some (I2C_write (read buf (ptr + k * m) (Z.min (w - k * m) m))
            true [dc_byte]).
Proof.
  intros Hm Hk. unfold page_transfers.
  rewrite list_lookup_fmap, lookup_seqZ_lt by lia. simpl.
  now rewrite Z2Nat.id, Z.add_0_l by lia.
Qed.

Lemma chunk_offset w m k :
  0 < m -> 0 <= k < (w + m - 1) / m -> 0 <= k * m /\ k * m < w.
Proof.
  intros Hm Hk. split; [apply Z.mul_nonneg_nonneg; lia|].
  pose proof (Z.mul_div_le (w + m - 1) m Hm) as Hq.
  assert (k * m <= ((w + m - 1) / m - 1) * m)
    by (apply Z.mul_le_mono_nonneg_r; lia).
  lia.
Qed.

Lemma read_read buf ptr w off c :
  0 <= ptr -> 0 <= off -> 0 <= c -> off + c <= w ->
  read (read buf ptr w) off c = read buf (ptr + off) c.
Proof.
  intros Hp Ho Hc Hw. unfold read.
  rewrite take_drop_commute, take_take, Nat.min_l by lia.
  rewrite <- take_drop_commute, drop_drop.
  now rewrite Z2Nat.inj_add by lia.
Qed.

(** C3, as the code has it.  [display] keeps the device's limit
    [maxBufferSize - 1] in eight bits, [limit dev], and the width and the
    number of pages in eight bits as well.  On a display with an I2C device
    attached whose [limit dev] is not zero, with at most 255 columns and at
    most 2040 rows and its buffer allocated, in the flush of a dirty window
    that is not empty and lies inside the buffer, every data transfer
    carries [min (remaining, limit dev)] bytes, [remaining] being the bytes
    of the page's column range not yet sent.  So a column range of [w] bytes
    goes out in [ceil (w / limit dev)] transfers per page, transfer [k]
    carrying the [min (w - k * limit dev, limit dev)] bytes at offset
    [k * limit dev] of the range, and the payloads of a page's transfers, put
    end to end in the order sent, are the bytes of columns [x1..x2] of that
    page of the framebuffer.  For a device with [2 <= maxBufferSize <= 256]
    the limit is [maxBufferSize - 1] itself. *)
Theorem C3_chunked_transfers fuel d dev bus :
  drivable d dev -> dirty_inside d ->
  (Z.to_nat (window_x2 d - window_x1 d + 1) <= fuel)%nat ->
  exists bus',
    GrayOLED.display fuel d bus = Returns (reset d, bus') /\
    ops bus' = ops bus ++ flush_ops d (limit dev) /\
    (2 <= maxBufferSize dev <= 256 -> limit dev = maxBufferSize dev - 1) /\
    forall p, window_y1 d / 8 <= p < pages_of d ->
      let w := window_x2 d - window_x1 d + 1 in
      let transfers := data_transfers (page_ops d (limit dev) p) in
      Z.of_nat (length transfers) = (w + limit dev - 1) / limit dev /\
      (forall k, 0 <= k < (w + limit dev - 1) / limit dev ->
         exists data,
           transfers !! Z.to_nat k = Some (I2C_write data true [dc_byte]) /\
           data = read (columns d p (window_x1 d) (window_x2 d))
                    (k * limit dev) (Z.min (w - k * limit dev) (limit dev)) /\
           Z.of_nat (length data) = Z.min (w - k * limit dev) (limit dev)) /\
      concat (payload <$> transfers)
        = columns d p (window_x1 d) (window_x2 d).
Proof.
  intros Hd Hw Hfuel.
  destruct (drivable_display_ops fuel d dev bus Hd Hw Hfuel)
    as (bus' & Hrun & Hops).
  exists bus'. split; [exact Hrun|]. split; [exact Hops|]. split.
  { intros Hmax. unfold limit. apply uint8_t_small. lia. }
  intros p Hp w transfers. subst transfers.
  pose proof (drivable_limit d dev Hd) as Hm.
  pose proof (drivable_width d dev Hd) as HW.
  destruct Hw as (Hx1 & Hx2 & Hy1 & Hy2).
  assert (Hp0 : 0 <= p < pages_of d) by lia.
  assert (Hpw : 0 <= p * WIDTH d) by (apply Z.mul_nonneg_nonneg; lia).
  assert (Hw0 : 0 < w) by (subst w; lia).
  pose proof (drivable_columns_allocated d dev p Hd
                (conj Hx1 (conj Hx2 (conj Hy1 Hy2))) Hp0) as Hlen.
  rewrite data_transfers_page_ops. fold w. split; [|split].
  - apply page_transfers_length; lia.
  - intros k Hk. destruct (chunk_offset w (limit dev) k Hm Hk) as [Hk0 Hkw].
    eexists. split; [now apply page_transfers_lookup|]. split.
    + unfold columns. fold w. now rewrite read_read by lia.
    + apply read_length; lia.
  - unfold columns. fold w. apply page_transfers_payload; lia.
Qed.

Lemma C3_chunked_transfers_witness :
  drivable (dirty_row (Some (reliable 5))) (reliable 5) /\
  dirty_inside (dirty_row (Some (reliable 5))) /\
  exists bus',
    GrayOLED.display 10 (dirty_row (Some (reliable 5))) []
      = Returns (reset (dirty_row (Some (reliable 5))), bus') /\
    ops bus' = flush_ops (dirty_row (Some (reliable 5))) 4.
Proof.
  assert (Hd : drivable (dirty_row (Some (reliable 5))) (reliable 5))
    by (split; evaluate).
  assert (Hw : dirty_inside (dirty_row (Some (reliable 5))))
    by evaluate.
  split; [exact Hd|]. split; [exact Hw|].
  destruct (C3_chunked_transfers 10 (dirty_row (Some (reliable 5)))
              (reliable 5) [] Hd Hw) as (bus' & Hrun & Hops & _).
  - simpl. lia.
  - exists bus'. split; [exact Hrun | exact Hops].
Defined.

(** A device whose limit is zero in eight bits, [maxBufferSize = 257], never
    lets the transfer loop of part_000 end. *)
Lemma display_limit_zero_hangs fuel :
  GrayOLED.display fuel (dirty_row (Some (reliable 257))) [] = OutOfFuel.
Proof.
  unfold GrayOLED.display. simpl.
  change (page_range _ _) with [1]. simpl.
  unfold GrayOLED.display_page.
  match goal with
  | |- context [transfer fuel ?dev ?buf ?chunk ?ptr ?w ?b] =>
      rewrite (transfer_stuck fuel dev buf chunk ptr w b)
        by evaluate
  end.
  reflexivity.
Qed.

(** C3, as the specification has it, fails wherever a quantity of the flush
    does not fit the eight bits [display] keeps it in.
    - The limit: with [maxBufferSize = 300] and the 128 columns of a page
      dirty, the claim has one transfer of [min (128, 299) = 128] bytes;
      [display] compares with [(uint8_t) 299 = 43] and sends three transfers,
      of 43, 43 and 42 bytes.
    - The width: on a display of 256 columns and 8 rows with the whole buffer
      dirty and [maxBufferSize = 32], the claim has [ceil (256 / 31) = 9]
      transfers that carry the 256 bytes of the page; [bytes_per_page] is
      [(uint8_t) 256 = 0], and [display] sends the page-select command and no
      data transfer.
    - The number of pages: on a display of 4 columns and 2048 rows with the
      first row dirty, the claim has one transfer of 4 bytes; [pages] is
      [(uint8_t) 256 = 0], and [display] sends nothing.
    - A limit of zero: with [maxBufferSize = 257] the claim has chunks of
      [min (remaining, 256)] bytes; [display] compares with [(uint8_t) 256 =
      0] and its transfer loop never ends. *)
Lemma C3_counterexample :
  (exists bus',
     GrayOLED.display 128
       (set_window (blank 128 8 (Some (reliable 300))) 0 0 127 0) []
       = Returns (reset (set_window (blank 128 8 (Some (reliable 300)))
                           0 0 127 0), bus') /\
     (fun o => Z.of_nat (length (payload o))) <$> data_transfers (ops bus')
       = [43; 43; 42] /\
     Z.min 128 (maxBufferSize (reliable 300) - 1) = 128) /\
  (exists bus',
     GrayOLED.display 256
       (set_window (blank 256 8 (Some (reliable 32))) 0 0 255 7) []
       = Returns (reset (set_window (blank 256 8 (Some (reliable 32)))
                           0 0 255 7), bus') /\
     ops bus' = [I2C_setSpeed 400000; page_select 0 0; I2C_setSpeed 100000] /\
     data_transfers (ops bus') = [] /\
     (256 + (maxBufferSize (reliable 32) - 1) - 1)
       / (maxBufferSize (reliable 32) - 1) = 9) /\
  (exists bus',
     GrayOLED.display 4
       (set_window (blank 4 2048 (Some (reliable 32))) 0 0 3 0) []
       = Returns (reset (set_window (blank 4 2048 (Some (reliable 32)))
                           0 0 3 0), bus') /\
     ops bus' = [I2C_setSpeed 400000; I2C_setSpeed 100000] /\
     (4 + (maxBufferSize (reliable 32) - 1) - 1)
       / (maxBufferSize (reliable 32) - 1) = 1) /\
  (forall fuel,
     GrayOLED.display fuel (dirty_row (Some (reliable 257))) [] = OutOfFuel).
Proof.
  split; [|split; [|split]].
  - eexists. split; [vm_compute; reflexivity|].
    split; vm_compute; reflexivity.
  - eexists. split; [vm_compute; reflexivity|].
    repeat split; vm_compute; reflexivity.
  - eexists. split; [vm_compute; reflexivity|].
    split; vm_compute; reflexivity.
  - exact display_limit_zero_hangs.
Qed.

(** ** [display] of src/Adafruit_SH110X.cpp

    The older function has no dirty window: every call sends every page in
    full, each after its page-select command, in transfers capped by the
    sixteen-bit [maxbuff]. *)

Lemma GFX_display_page_ops fuel dev d p bus :
  0 < WIDTH d <= 255 -> 0 < uint16_t (maxBufferSize dev - 1) ->
  (Z.to_nat (WIDTH d) <= fuel)%nat ->
  exists bus',
    GFX.display_page fuel dev d (WIDTH d) (uint16_t (maxBufferSize dev - 1))
      p (p * WIDTH d, bus) = Returns ((p + 1) * WIDTH d, bus') /\
    ops bus' = ops bus
               ++ I2C_write [0x00; uint8_t (SH110X_SETPAGEADDR + p); 0x10; 0x00]
                    true []
               :: page_transfers (buffer d) (p * WIDTH d) (WIDTH d)
                    (uint16_t (maxBufferSize dev - 1)).
Proof.
  intros HW Hm Hfuel. unfold GFX.display_page.
  match goal with
  | |- context [transfer fuel dev ?buf ?chunk ?ptr ?w ?b] =>
      destruct (transfer_ops fuel dev buf chunk
                  (uint16_t (maxBufferSize dev - 1)) ptr w b)
        as (bus' & Hrun & Hops)
  end; try assumption; try lia.
  { intros r Hr. rewrite arduino_min. apply uint8_t_small. lia. }
  exists bus'. split.
  - rewrite Hrun. do 2 f_equal. lia.
  - rewrite Hops. unfold i2c_write; simpl. rewrite ops_snoc.
    now rewrite <- app_assoc.
Qed.

Lemma GFX_for_each_ops (body : Z -> Z * Log -> outcome (Z * Log))
    (g : Z -> list BusOp) (W : Z) (n : nat) :
  forall a bus,
  (forall p b, a <= p < a + Z.of_nat n ->
     exists b', body p (p * W, b) = Returns ((p + 1) * W, b') /\
                ops b' = ops b ++ g p) ->
  exists bus',
    for_each body (seqZ a (Z.of_nat n)) (a * W, bus)
      = Returns ((a + Z.of_nat n) * W, bus') /\
    ops bus' = ops bus ++ concat (g <$> seqZ a (Z.of_nat n)).
Proof.
  induction n as [|n IH]; intros a bus Hbody.
  - exists bus. simpl. rewrite Z.add_0_r, app_nil_r. auto.
  - rewrite seqZ_cons by lia.
    replace (Z.pred (Z.of_nat (S n))) with (Z.of_nat n) by lia.
    destruct (Hbody a bus) as (bus1 & Hrun & Hops); [lia|].
    destruct (IH (Z.succ a) bus1) as (bus2 & Hrun2 & Hops2).
    { intros p b Hp. apply Hbody. lia. }
    exists bus2. split.
    + simpl. rewrite Hrun. simpl.
      replace ((a + 1) * W) with (Z.succ a * W) by lia.
      rewrite Hrun2. do 2 f_equal. lia.
    + rewrite Hops2, Hops, fmap_cons, List.concat_cons, <- app_assoc.
      reflexivity.
Qed.

Lemma GFX_display_ops fuel d dev bus :
  i2c_dev d = Some dev -> 0 < WIDTH d <= 255 -> 0 < HEIGHT d <= 255 ->
  0 < uint16_t (maxBufferSize dev - 1) ->
  (Z.to_nat (WIDTH d) <= fuel)%nat ->
  exists bus',
    GFX.display fuel d bus = Returns (d, bus') /\
    ops bus' =
      ops bus
      ++ concat ((fun p =>
                    I2C_write [0x00; uint8_t (SH110X_SETPAGEADDR + p);
                               0x10; 0x00] true []
                    :: page_transfers (buffer d) (p * WIDTH d) (WIDTH d)
                         (uint16_t (maxBufferSize dev - 1)))
                 <$> seqZ 0 (pages_of d)).
Proof.
  intros Hdev HW HH Hm Hfuel. unfold GFX.display.
  rewrite Hdev. simpl. unfold c_div, c_rem.
  destruct (Z.eqb_spec (uint16_t (maxBufferSize dev - 1)) 0) as [E|_]; [lia|].
  simpl. rewrite (uint8_t_small (WIDTH d)) by lia.
  rewrite Z.quot_div_nonneg by lia.
  rewrite (uint8_t_small ((HEIGHT d + 7) / 8)) by lia.
  unfold page_range. rewrite Z.sub_0_r. fold (pages_of d).
  assert (Hn : pages_of d = Z.of_nat (Z.to_nat (pages_of d)))
    by (unfold pages_of; lia).
  rewrite Hn.
  edestruct (GFX_for_each_ops
               (GFX.display_page fuel dev d (WIDTH d)
                  (uint16_t (maxBufferSize dev - 1)))
               (fun p =>
                  I2C_write [0x00; uint8_t (SH110X_SETPAGEADDR + p);
                             0x10; 0x00] true []
                  :: page_transfers (buffer d) (p * WIDTH d) (WIDTH d)
                       (uint16_t (maxBufferSize dev - 1)))
               (WIDTH d) (Z.to_nat (pages_of d)) 0 bus)
    as (bus' & Hrun & Hops).
  { intros p b _. now apply GFX_display_page_ops. }
  change (0 * WIDTH d) with 0 in Hrun. rewrite Hrun. simpl.
  exists bus'. split; [reflexivity | exact Hops].
Qed.

(** * Further properties of the code *)

(** ** Bits of stored bytes *)

Lemma uint8_t_bits z k :
  0 <= k -> Z.testbit (uint8_t z) k = (k <? 8) && Z.testbit z k.
Proof.
  intros Hk. unfold uint8_t. change 256 with (2 ^ 8).
  destruct (Z.ltb_spec k 8).
  - now rewrite Z.mod_pow2_bits_low by lia.
  - now rewrite Z.mod_pow2_bits_high by lia.
Qed.

Lemma uint8_t_byte z : 0 <= uint8_t z < 256.
Proof. unfold uint8_t. lia. Qed.

Lemma byte_bits b k : 0 <= b < 256 -> 8 <= k -> Z.testbit b k = false.
Proof.
  intros Hb Hk. rewrite <- (uint8_t_small b Hb), uint8_t_bits by lia.
  destruct (Z.ltb_spec k 8); [lia|reflexivity].
Qed.

Lemma source_bit_range y : 0 <= Z.land y 7 < 8.
Proof. rewrite land_7. lia. Qed.

(** Equality of stored bytes, bit by bit. *)
Ltac byte_eq k :=
  apply Z.bits_inj'; intros ?n ?Hn;
  repeat first
    [ rewrite uint8_t_bits by lia
    | rewrite Z.lor_spec | rewrite Z.land_spec | rewrite Z.lxor_spec
    | rewrite Z.lnot_spec by lia
    | rewrite shiftl_1_testbit by lia ];
  repeat match goal with
         | |- context [Z.testbit ?b ?n] => destruct (Z.testbit b n)
         | |- context [?a <? 8] => destruct (a <? 8)
         | |- context [k =? ?n] => destruct (k =? n)
         end; reflexivity.

(** ** [drawPixel] as one byte update *)

Lemma in_bounds_set_buffer d b x y :
  GFX.in_bounds (set_buffer d b) x y = GFX.in_bounds d x y.
Proof. reflexivity. Qed.

Lemma drawPixel_update d x y color :
  GFX.in_bounds d x y = true -> known_color color = true ->
  GFX.drawPixel d x y color =
    GFX.update d ((GFX.rotate d x y).1
                  + ((GFX.rotate d x y).2 ÷ 8) * WIDTH d)
      (pixel_op color (Z.shiftl 1 (Z.land (GFX.rotate d x y).2 7))).
Proof.
  intros Hin Hc. unfold GFX.drawPixel, known_color, pixel_op in *. rewrite Hin.
  destruct (GFX.rotate d x y) as [x' y']; simpl.
  destruct (color =? SH110X_WHITE); [reflexivity|].
  destruct (color =? SH110X_BLACK); [reflexivity|].
  destruct (color =? SH110X_INVERSE); [reflexivity|discriminate].
Qed.

Lemma drawPixel_unknown d x y color :
  known_color color = false -> GFX.drawPixel d x y color = d.
Proof.
  unfold known_color, GFX.drawPixel. intros Hc.
  destruct (GFX.in_bounds d x y); [|reflexivity].
  destruct (GFX.rotate d x y) as [x' y'].
  destruct (color =? SH110X_WHITE); [discriminate|].
  destruct (color =? SH110X_BLACK); [discriminate|].
  destruct (color =? SH110X_INVERSE); [discriminate|reflexivity].
Qed.

Lemma update_update d i f g :
  GFX.update (GFX.update d i g) i f =
    set_buffer d
      (alter (fun b => uint8_t (f (uint8_t (g b)))) (Z.to_nat i) (buffer d)).
Proof.
  unfold GFX.update; simpl. now rewrite list_alter_alter_eq.
Qed.

Lemma set_buffer_same d : set_buffer d (buffer d) = d.
Proof. now destruct d. Qed.

Lemma set_buffer_alter_id d (f : Z -> Z) i :
  (forall b, buffer d !! i = Some b -> f b = b) ->
  set_buffer d (alter f i (buffer d)) = d.
Proof.
  intros Hf. rewrite <- (set_buffer_same d) at 3. f_equal.
  etransitivity; [|apply (list_alter_id id); reflexivity].
  apply list_alter_ext; [exact Hf|reflexivity].
Qed.

Lemma pixel_op_overwrite c1 c2 k b :
  0 <= k -> c2 = SH110X_WHITE \/ c2 = SH110X_BLACK ->
  uint8_t (pixel_op c2 (Z.shiftl 1 k) (uint8_t (pixel_op c1 (Z.shiftl 1 k) b)))
  = uint8_t (pixel_op c2 (Z.shiftl 1 k) b).
Proof.
  intros Hk [-> | ->];
    unfold pixel_op, SH110X_WHITE, SH110X_BLACK, SH110X_INVERSE; simpl;
    repeat match goal with
           | |- context [c1 =? ?v] => destruct (c1 =? v)
           end;
    byte_eq k.
Qed.

Lemma pixel_op_invert_twice k b :
  0 <= k < 8 -> 0 <= b < 256 ->
  uint8_t (pixel_op SH110X_INVERSE (Z.shiftl 1 k)
             (uint8_t (pixel_op SH110X_INVERSE (Z.shiftl 1 k) b))) = b.
Proof.
  intros Hk Hb. unfold pixel_op; simpl.
  apply Z.bits_inj'; intros n Hn.
  rewrite !uint8_t_bits, !Z.lxor_spec, uint8_t_bits, Z.lxor_spec,
    shiftl_1_testbit by lia.
  destruct (Z.ltb_spec n 8); simpl.
  - destruct (Z.testbit b n), (k =? n); reflexivity.
  - symmetry. now apply byte_bits.
Qed.

(** X1.  The last write to a pixel wins: drawing a pixel white or black gives
    the same object whatever was drawn at that point just before, so that
    drawing the same colour twice is drawing it once.  This holds at every
    point and for every earlier colour. *)
Theorem drawPixel_last_write_wins d x y c1 c2 :
  c2 = SH110X_WHITE \/ c2 = SH110X_BLACK ->
  GFX.drawPixel (GFX.drawPixel d x y c1) x y c2 = GFX.drawPixel d x y c2.
Proof.
  intros Hc2.
  destruct (known_color c1) eqn:Hk1; [|now rewrite (drawPixel_unknown d x y c1)].
  destruct (GFX.in_bounds d x y) eqn:Hin.
  - assert (Hk2 : known_color c2 = true) by (destruct Hc2; subst; reflexivity).
    rewrite (drawPixel_update d x y c1) by assumption.
    rewrite drawPixel_update by assumption.
    change (GFX.rotate (GFX.update d ?i ?f) x y) with (GFX.rotate d x y).
    change (WIDTH (GFX.update d ?i ?f)) with (WIDTH d).
    rewrite update_update, (drawPixel_update d x y c2) by assumption.
    unfold GFX.update. f_equal. apply list_alter_ext; [|reflexivity].
    intros b _. apply pixel_op_overwrite; [|assumption].
    apply source_bit_range.
  - assert (E : forall c, GFX.drawPixel d x y c = d)
      by (intros c; unfold GFX.drawPixel; now rewrite Hin).
    now rewrite !E.
Qed.

Lemma drawPixel_last_write_wins_witness :
  GFX.drawPixel (GFX.drawPixel (blank 16 24 None) 3 9 SH110X_INVERSE)
    3 9 SH110X_BLACK
  = GFX.drawPixel (blank 16 24 None) 3 9 SH110X_BLACK.
Proof.
  apply (drawPixel_last_write_wins (blank 16 24 None) 3 9
           SH110X_INVERSE SH110X_BLACK).
  right. reflexivity.
Defined.

(** X2.  Inverting a pixel twice gives back the very object, every byte of the
    buffer included, provided the buffer holds bytes; at every point, inside
    the bounds or not. *)
Theorem drawPixel_invert_twice d x y :
  bytes (buffer d) ->
  GFX.drawPixel (GFX.drawPixel d x y SH110X_INVERSE) x y SH110X_INVERSE = d.
Proof.
  intros Hb.
  destruct (GFX.in_bounds d x y) eqn:Hin.
  - rewrite (drawPixel_update d x y SH110X_INVERSE) by easy.
    rewrite drawPixel_update by easy.
    change (GFX.rotate (GFX.update d ?i ?f) x y) with (GFX.rotate d x y).
    change (WIDTH (GFX.update d ?i ?f)) with (WIDTH d).
    rewrite update_update. apply set_buffer_alter_id.
    intros b Hl. apply pixel_op_invert_twice; [apply source_bit_range|].
    unfold bytes in Hb. rewrite Forall_lookup in Hb. exact (Hb _ _ Hl).
  - assert (E : forall c, GFX.drawPixel d x y c = d)
      by (intros c; unfold GFX.drawPixel; now rewrite Hin).
    now rewrite !E.
Qed.

Lemma drawPixel_invert_twice_witness :
  bytes (buffer (blank 16 24 None)) /\
  GFX.drawPixel (GFX.drawPixel (blank 16 24 None) 3 9 SH110X_INVERSE)
    3 9 SH110X_INVERSE = blank 16 24 None.
Proof.
  assert (Hb : bytes (buffer (blank 16 24 None)))
    by (apply Forall_replicate; lia).
  split; [exact Hb|].
  exact (drawPixel_invert_twice (blank 16 24 None) 3 9 Hb).
Defined.

(** ** The pixel map *)

Lemma byte_bit_inj W x1 y1 x2 y2 :
  0 < W -> 0 <= x1 < W -> 0 <= x2 < W -> 0 <= y1 -> 0 <= y2 ->
  byte_index W x1 y1 = byte_index W x2 y2 ->
  bit_index y1 = bit_index y2 ->
  x1 = x2 /\ y1 = y2.
Proof.
  intros HW Hx1 Hx2 Hy1 Hy2 Hbyte Hbit. unfold byte_index, bit_index in *.
  assert (Hq1 : 0 <= y1 / 8) by lia. assert (Hq2 : 0 <= y2 / 8) by lia.
  assert (0 <= y1 / 8 * W) by (apply Z.mul_nonneg_nonneg; lia).
  assert (0 <= y2 / 8 * W) by (apply Z.mul_nonneg_nonneg; lia).
  apply Z2Nat.inj in Hbyte; [|lia|lia].
  assert (Hq : y1 / 8 = y2 / 8).
  { revert Hbyte Hq1 Hq2. generalize (y1 / 8) (y2 / 8). intros q1 q2 E ? ?.
    destruct (Z.lt_trichotomy q1 q2) as [Hlt|[Heq|Hgt]]; [|exact Heq|].
    - assert (W * 1 <= W * (q2 - q1)) by (apply Z.mul_le_mono_nonneg_l; lia).
      lia.
    - assert (W * 1 <= W * (q1 - q2)) by (apply Z.mul_le_mono_nonneg_l; lia).
      lia. }
  rewrite Hq in Hbyte. split; lia.
Qed.

Lemma physical_inj d x1 y1 x2 y2 :
  begun d -> inside d x1 y1 -> inside d x2 y2 ->
  physical d x1 y1 = physical d x2 y2 -> x1 = x2 /\ y1 = y2.
Proof.
  intros [HW HH HR _] [Hx1 Hy1] [Hx2 Hy2].
  unfold physical, logical_to_physical. unfold width, height in *.
  destruct (rotation d =? 0) eqn:E0; [apply Z.eqb_eq in E0|apply Z.eqb_neq in E0].
  { rewrite E0 in *; simpl in *. intros [= ]. lia. }
  destruct (rotation d =? 1) eqn:E1; [apply Z.eqb_eq in E1|apply Z.eqb_neq in E1].
  { rewrite E1 in *; simpl in *. intros [= ]. lia. }
  destruct (rotation d =? 2) eqn:E2; [apply Z.eqb_eq in E2|apply Z.eqb_neq in E2].
  { rewrite E2 in *; simpl in *. intros [= ]. lia. }
  replace (rotation d) with 3 in * by lia. simpl in *. intros [= ]. lia.
Qed.

Lemma physical_onto d x' y' :
  begun d -> on_panel d x' y' ->
  exists x y, inside d x y /\ physical d x y = (x', y').
Proof.
  intros [HW HH HR _] [Hx Hy].
  unfold physical, logical_to_physical, inside, width, height.
  destruct (rotation d =? 0) eqn:E0; [apply Z.eqb_eq in E0|apply Z.eqb_neq in E0].
  { exists x', y'. rewrite E0; simpl. auto. }
  destruct (rotation d =? 1) eqn:E1; [apply Z.eqb_eq in E1|apply Z.eqb_neq in E1].
  { exists y', (WIDTH d - 1 - x'). rewrite E1; simpl.
    split; [lia|]. f_equal; lia. }
  destruct (rotation d =? 2) eqn:E2; [apply Z.eqb_eq in E2|apply Z.eqb_neq in E2].
  { exists (WIDTH d - 1 - x'), (HEIGHT d - 1 - y'). rewrite E2; simpl.
    split; [lia|]. f_equal; lia. }
  exists (HEIGHT d - 1 - y'), x'. replace (rotation d) with 3 by lia; simpl.
  split; [lia|]. f_equal; lia.
Qed.

Lemma pixel_address_inj d x1 y1 x2 y2 :
  begun d -> inside d x1 y1 -> inside d x2 y2 ->
  pixel_byte d x1 y1 = pixel_byte d x2 y2 ->
  pixel_bit d x1 y1 = pixel_bit d x2 y2 ->
  x1 = x2 /\ y1 = y2.
Proof.
  intros Hd H1 H2 Hbyte Hbit.
  destruct (physical_range d x1 y1 Hd H1) as [Hx1 Hy1].
  destruct (physical_range d x2 y2 Hd H2) as [Hx2 Hy2].
  unfold pixel_byte, pixel_bit in *.
  assert (HW : 0 < WIDTH d) by (destruct Hd; lia).
  destruct (byte_bit_inj (WIDTH d) (physical d x1 y1).1 (physical d x1 y1).2
              (physical d x2 y2).1 (physical d x2 y2).2 HW Hx1 Hx2
              (proj1 Hy1) (proj1 Hy2) Hbyte Hbit)
    as [Ex Ey].
  apply (physical_inj d); try assumption.
  destruct (physical d x1 y1), (physical d x2 y2); simpl in *. congruence.
Qed.

(** X3.  The rotation switch of [drawPixel] and [getPixel] is a one-to-one
    map of the logical rectangle onto the physical one: it sends points
    inside the logical bounds into the panel, sends different points to
    different points, and reaches every point of the panel. *)
Theorem rotate_bijection d :
  begun d ->
  (forall x y, inside d x y ->
     on_panel d (GFX.rotate d x y).1 (GFX.rotate d x y).2) /\
  (forall x1 y1 x2 y2, inside d x1 y1 -> inside d x2 y2 ->
     GFX.rotate d x1 y1 = GFX.rotate d x2 y2 -> x1 = x2 /\ y1 = y2) /\
  (forall x' y', on_panel d x' y' ->
     exists x y, inside d x y /\ GFX.rotate d x y = (x', y')).
Proof.
  intros Hd. split; [|split].
  - intros x y Hin. rewrite rotate_physical by assumption.
    now apply physical_range.
  - intros x1 y1 x2 y2 H1 H2. rewrite !rotate_physical by assumption.
    now apply physical_inj.
  - intros x' y' Hp. destruct (physical_onto d x' y' Hd Hp) as (x & y & Hin & E).
    exists x, y. split; [exact Hin|]. now rewrite rotate_physical.
Qed.

Lemma rotate_bijection_witness :
  begun (rotated (blank 16 24 None) 1) /\
  exists x y, inside (rotated (blank 16 24 None) 1) x y /\
              GFX.rotate (rotated (blank 16 24 None) 1) x y = (15, 23).
Proof.
  assert (Hd : begun (rotated (blank 16 24 None) 1)) by (split; evaluate).
  split; [exact Hd|].
  apply (proj2 (proj2 (rotate_bijection _ Hd)) 15 23).
  evaluate.
Defined.

(** X4.  Reading any pixel after a write: [getPixel] at a point inside the
    bounds returns the painted value if the point is the one just drawn, and
    what it returned before the write at every other point; the write may be
    anywhere, outside the bounds included. *)
Theorem getPixel_after_drawPixel d x y color x2 y2 :
  begun d -> inside d x2 y2 ->
  GFX.getPixel (GFX.drawPixel d x y color) x2 y2 =
    if decide ((x2, y2) = (x, y))
    then paint color (GFX.getPixel d x2 y2)
    else GFX.getPixel d x2 y2.
Proof.
  intros Hd H2.
  destruct (GFX.in_bounds d x y) eqn:Hin.
  - apply in_bounds_inside in Hin.
    rewrite getPixel_inside
      by (try apply drawPixel_begun; try apply drawPixel_inside; assumption).
    rewrite drawPixel_pixel_byte, drawPixel_pixel_bit.
    rewrite drawPixel_bit_at by (auto using pixel_bit_range).
    rewrite <- getPixel_inside by assumption.
    destruct (decide ((x2, y2) = (x, y))) as [E|Hne].
    + injection E as -> ->. now rewrite decide_True.
    + rewrite decide_False; [reflexivity|].
      intros [Hbyte Hbit]. apply Hne.
      destruct (pixel_address_inj d x2 y2 x y Hd H2 Hin Hbyte Hbit).
      congruence.
  - assert (E : GFX.drawPixel d x y color = d)
      by (unfold GFX.drawPixel; now rewrite Hin).
    rewrite E. rewrite decide_False; [reflexivity|].
    intros [= -> ->]. apply in_bounds_inside in H2. congruence.
Qed.

Lemma getPixel_after_drawPixel_witness :
  begun (rotated (blank 16 24 None) 1) /\
  inside (rotated (blank 16 24 None) 1) 20 3 /\
  GFX.getPixel
    (GFX.drawPixel (rotated (blank 16 24 None) 1) 21 3 SH110X_WHITE) 20 3
  = false.
Proof.
  assert (Hd : begun (rotated (blank 16 24 None) 1)) by (split; evaluate).
  assert (Hin : inside (rotated (blank 16 24 None) 1) 20 3) by evaluate.
  split; [exact Hd|]. split; [exact Hin|].
  exact (getPixel_after_drawPixel _ 21 3 SH110X_WHITE 20 3 Hd Hin).
Defined.

(** ** Writes at different points *)

Lemma pixel_op_commute c1 c2 k1 k2 b :
  0 <= k1 -> 0 <= k2 -> k1 <> k2 ->
  uint8_t (pixel_op c2 (Z.shiftl 1 k2)
             (uint8_t (pixel_op c1 (Z.shiftl 1 k1) b)))
  = uint8_t (pixel_op c1 (Z.shiftl 1 k1)
               (uint8_t (pixel_op c2 (Z.shiftl 1 k2) b))).
Proof.
  intros H1 H2 Hne. unfold pixel_op.
  destruct (c1 =? SH110X_WHITE), (c1 =? SH110X_BLACK), (c1 =? SH110X_INVERSE),
    (c2 =? SH110X_WHITE), (c2 =? SH110X_BLACK), (c2 =? SH110X_INVERSE);
    apply Z.bits_inj'; intros n Hn;
    repeat first
      [ rewrite uint8_t_bits by lia
      | rewrite Z.lor_spec | rewrite Z.land_spec | rewrite Z.lxor_spec
      | rewrite Z.lnot_spec by lia
      | rewrite shiftl_1_testbit by lia ];
    destruct (Z.eqb_spec k1 n), (Z.eqb_spec k2 n); try lia;
    destruct (Z.testbit b n), (n <? 8); reflexivity.
Qed.

Lemma drawPixel_in_bounds d x y color x2 y2 :
  GFX.in_bounds (GFX.drawPixel d x y color) x2 y2 = GFX.in_bounds d x2 y2.
Proof. destruct (drawPixel_frame d x y color) as (b & -> & _). reflexivity. Qed.

Lemma drawPixel_outside d x y color :
  GFX.in_bounds d x y = false -> GFX.drawPixel d x y color = d.
Proof. intros Hin. unfold GFX.drawPixel. now rewrite Hin. Qed.

Lemma source_address d x y :
  begun d -> inside d x y ->
  Z.to_nat ((GFX.rotate d x y).1 + ((GFX.rotate d x y).2 ÷ 8) * WIDTH d)
    = pixel_byte d x y /\
  Z.land (GFX.rotate d x y).2 7 = pixel_bit d x y.
Proof.
  intros Hd Hin. rewrite rotate_physical by assumption.
  destruct (physical_range d x y Hd Hin) as [_ Hy].
  unfold pixel_byte, pixel_bit. split.
  - apply source_index. lia.
  - apply land_7.
Qed.

(** X5.  Writes at two different points of the display commute: drawn in
    either order they give the same object, whether the two pixels share a
    byte of the buffer or not, whatever the two colours. *)
Theorem drawPixel_commute d x1 y1 c1 x2 y2 c2 :
  begun d -> (x1, y1) <> (x2, y2) ->
  GFX.drawPixel (GFX.drawPixel d x1 y1 c1) x2 y2 c2 =
  GFX.drawPixel (GFX.drawPixel d x2 y2 c2) x1 y1 c1.
Proof.
  intros Hd Hne.
  destruct (known_color c1) eqn:Hk1;
    [|now rewrite !(drawPixel_unknown _ x1 y1 c1)].
  destruct (known_color c2) eqn:Hk2;
    [|now rewrite !(drawPixel_unknown _ x2 y2 c2)].
  destruct (GFX.in_bounds d x1 y1) eqn:Hin1.
  2:{ rewrite (drawPixel_outside d x1 y1) by assumption.
      rewrite (drawPixel_outside (GFX.drawPixel d x2 y2 c2) x1 y1);
        [reflexivity|].
      now rewrite drawPixel_in_bounds. }
  destruct (GFX.in_bounds d x2 y2) eqn:Hin2.
  2:{ rewrite (drawPixel_outside d x2 y2) by assumption.
      rewrite (drawPixel_outside (GFX.drawPixel d x1 y1 c1) x2 y2);
        [reflexivity|].
      now rewrite drawPixel_in_bounds. }
  rewrite (drawPixel_update d x1 y1 c1), (drawPixel_update d x2 y2 c2)
    by assumption.
  rewrite !drawPixel_update by assumption.
  change (GFX.rotate (GFX.update d ?i ?f) ?x ?y) with (GFX.rotate d x y).
  change (WIDTH (GFX.update d ?i ?f)) with (WIDTH d).
  apply in_bounds_inside in Hin1, Hin2.
  destruct (source_address d x1 y1 Hd Hin1) as [Ei1 Ek1].
  destruct (source_address d x2 y2 Hd Hin2) as [Ei2 Ek2].
  unfold GFX.update; simpl. f_equal. rewrite Ei1, Ei2, Ek1, Ek2.
  destruct (decide (pixel_byte d x1 y1 = pixel_byte d x2 y2)) as [E|Hi].
  - rewrite E, !list_alter_alter_eq.
    apply list_alter_ext; [|reflexivity]. intros b _. simpl.
    apply pixel_op_commute; try apply pixel_bit_range.
    intros Hbit. apply Hne.
    destruct (pixel_address_inj d x1 y1 x2 y2 Hd Hin1 Hin2 E Hbit).
    congruence.
  - apply list_alter_alter_ne. congruence.
Qed.

Lemma drawPixel_commute_witness :
  begun (blank 16 24 None) /\
  GFX.drawPixel (GFX.drawPixel (blank 16 24 None) 3 9 SH110X_WHITE)
    3 10 SH110X_INVERSE
  = GFX.drawPixel (GFX.drawPixel (blank 16 24 None) 3 10 SH110X_INVERSE)
      3 9 SH110X_WHITE.
Proof.
  assert (Hd : begun (blank 16 24 None)) by (split; evaluate).
  split; [exact Hd|].
  apply (drawPixel_commute _ 3 9 SH110X_WHITE 3 10 SH110X_INVERSE Hd).
  discriminate.
Defined.

(** ** More on the two [display] functions *)

Lemma data_transfers_app l1 l2 :
  data_transfers (l1 ++ l2) = data_transfers l1 ++ data_transfers l2.
Proof. apply List.filter_app. Qed.

Lemma concat_fmap_app {A B} (f : A -> list B) (l1 l2 : list (list A)) :
  concat ((fun l => concat (f <$> l)) <$> (l1 ++ l2)) =
  concat ((fun l => concat (f <$> l)) <$> l1)
  ++ concat ((fun l => concat (f <$> l)) <$> l2).
Proof. now rewrite fmap_app, List.concat_app. Qed.

Lemma payload_concat (ls : list (list BusOp)) :
  concat (payload <$> concat ls) =
    concat ((fun l => concat (payload <$> l)) <$> ls).
Proof.
  induction ls as [|l ls IH]; [reflexivity|].
  rewrite List.concat_cons, fmap_app, List.concat_app, IH. reflexivity.
Qed.

Lemma length_concat_const {A} (f : Z -> list A) ps n :
  (forall p, p ∈ ps -> Z.of_nat (length (f p)) = n) ->
  Z.of_nat (length (concat (f <$> ps))) = Z.of_nat (length ps) * n.
Proof.
  induction ps as [|p ps IH]; intros Hf; [reflexivity|].
  rewrite fmap_cons, List.concat_cons, length_app, Nat2Z.inj_add.
  rewrite (Hf p) by left.
  rewrite IH by (intros q Hq; apply Hf; now right).
  simpl length. lia.
Qed.

(** Every transfer of a range carries at least one byte and at most [m]. *)
Lemma page_transfers_fit buf ptr w m :
  0 < m -> 0 <= ptr -> 0 <= w ->
  (Z.to_nat (ptr + w) <= length buf)%nat ->
  Forall (fun o => 1 <= Z.of_nat (length (payload o)) <= m)
    (page_transfers buf ptr w m).
Proof.
  intros Hm Hp Hw Hlen. unfold page_transfers.
  apply Forall_fmap, Forall_forall. intros k Hk. simpl.
  apply elem_of_seqZ in Hk.
  destruct (chunk_offset w m k Hm) as [Hk0 Hkw]; [lia|].
  rewrite read_length by lia. lia.
Qed.

Lemma data_transfers_flush_ops d m :
  data_transfers (flush_ops d m) =
    concat ((fun p => page_transfers (buffer d) (p * WIDTH d + window_x1 d)
                        (window_x2 d - window_x1 d + 1) m)
            <$> page_range (window_y1 d / 8) (pages_of d)).
Proof.
  unfold flush_ops.
  change (data_transfers (I2C_setSpeed ?hz :: ?l)) with (data_transfers l).
  rewrite data_transfers_app.
  change (data_transfers [I2C_setSpeed _]) with (@nil BusOp).
  rewrite app_nil_r.
  induction (page_range (window_y1 d / 8) (pages_of d)) as [|p ps IH];
    [reflexivity|].
  rewrite !fmap_cons, !List.concat_cons, data_transfers_app, IH.
  now rewrite data_transfers_page_ops.
Qed.

Lemma page_range_bounds d dev p :
  flushable d dev -> dirty_inside d ->
  p ∈ page_range (window_y1 d / 8) (pages_of d) ->
  window_y1 d / 8 <= p < pages_of d /\ 0 <= p.
Proof.
  intros _ (_ & _ & Hy1 & _) Hp. unfold page_range in Hp.
  apply elem_of_seqZ in Hp. lia.
Qed.

(** X7.  No data transfer of a flush overruns the device: on a device that
    reports a buffer of at least one byte, every data transfer that [display]
    of part_000 issues carries at least one byte and, with its one byte of
    prefix, at most [maxBufferSize] bytes. *)
Theorem display_transfers_fit_device fuel d dev bus :
  flushable d dev -> dirty_inside d -> 1 <= maxBufferSize dev ->
  (Z.to_nat (window_x2 d - window_x1 d + 1) <= fuel)%nat ->
  exists bus' sent,
    GrayOLED.display fuel d bus = Returns (reset d, bus') /\
    ops bus' = ops bus ++ sent /\
    Forall (fun o => 1 <= Z.of_nat (length (payload o)) /\
                     Z.of_nat (length (payload o)) + 1 <= maxBufferSize dev)
      (data_transfers sent).
Proof.
  intros Hd Hw Hmax Hfuel.
  destruct (display_ops fuel d dev bus Hd Hw Hfuel) as (bus' & Hrun & Hops).
  exists bus', (flush_ops d (limit dev)).
  split; [exact Hrun|]. split; [exact Hops|].
  rewrite data_transfers_flush_ops.
  assert (Hlim : limit dev <= maxBufferSize dev - 1)
    by (unfold limit, uint8_t; lia).
  apply Forall_forall. intros o Ho.
  apply list_elem_of_In, List.in_concat in Ho. destruct Ho as (l & Hl & Ho).
  apply list_elem_of_In, list_elem_of_fmap in Hl. destruct Hl as (p & -> & Hp).
  destruct (page_range_bounds d dev p Hd Hw Hp) as [Hp1 Hp0].
  pose proof (columns_allocated d dev p Hd Hw ltac:(lia)) as Hlen.
  pose proof (flushable_limit d dev Hd) as Hm.
  pose proof (flushable_width d dev Hd) as HW.
  destruct Hw as (Hx1 & Hx2 & _).
  assert (0 <= p * WIDTH d) by (apply Z.mul_nonneg_nonneg; lia).
  pose proof (page_transfers_fit (buffer d) (p * WIDTH d + window_x1 d)
                (window_x2 d - window_x1 d + 1) (limit dev)
                Hm ltac:(lia) ltac:(lia) ltac:(lia)) as Hfit.
  rewrite Forall_forall in Hfit. apply list_elem_of_In in Ho.
  specialize (Hfit o Ho). simpl in Hfit. lia.
Qed.

Lemma display_transfers_fit_device_witness :
  flushable (dirty_row (Some (reliable 5))) (reliable 5) /\
  dirty_inside (dirty_row (Some (reliable 5))) /\
  exists bus' sent,
    GrayOLED.display 10 (dirty_row (Some (reliable 5))) []
      = Returns (reset (dirty_row (Some (reliable 5))), bus') /\
    ops bus' = sent.
Proof.
  assert (Hd : flushable (dirty_row (Some (reliable 5))) (reliable 5))
    by (split; evaluate).
  assert (Hw : dirty_inside (dirty_row (Some (reliable 5)))) by evaluate.
  split; [exact Hd|]. split; [exact Hw|].
  destruct (display_transfers_fit_device 10 (dirty_row (Some (reliable 5)))
              (reliable 5) [] Hd Hw) as (bus' & sent & Hrun & Hops & _).
  - simpl. lia.
  - simpl. lia.
  - exists bus', sent. split; [exact Hrun | exact Hops].
Defined.

(** The pages of a buffer, read one after the other, are the buffer. *)
Lemma read_pages buf W n :
  0 <= W ->
  concat ((fun p => read buf (p * W) W) <$> seqZ 0 (Z.of_nat n))
    = read buf 0 (Z.of_nat n * W).
Proof.
  intros HW. induction n as [|n IH]; [reflexivity|].
  rewrite seqZ_S, fmap_app, List.concat_app, IH. simpl.
  rewrite app_nil_r, Z.add_0_l.
  assert (0 <= Z.of_nat n * W) by (apply Z.mul_nonneg_nonneg; lia).
  rewrite <- (Z.add_0_l (Z.of_nat n * W)) at 2.
  rewrite read_split by lia. f_equal. lia.
Qed.

Lemma read_all buf n : length buf = Z.to_nat n -> read buf 0 n = buf.
Proof.
  intros Hl. unfold read. rewrite drop_0. apply take_ge. lia.
Qed.





(** [display] of part_000 on an object with a device, in terms of the
    local variables it computes. *)
Lemma display_unfold fuel d dev bus :
  i2c_dev d = Some dev ->
  GrayOLED.display fuel d bus =
    (bus1 ← for_each
              (GrayOLED.display_page fuel dev d (Flush.bytes_per_page d)
                 (uint16_t (maxBufferSize dev - 1))
                 (Flush.page_start d) (Flush.page_end d))
              (page_range (Flush.first_page d) (Flush.pages d))
              (i2c_setSpeed dev (i2c_preclk d) bus).1;
     mret (reset d, (i2c_setSpeed dev (i2c_postclk d) bus1).1)).
Proof.
  intros Hdev. unfold GrayOLED.display. rewrite Hdev.
  unfold Flush.bytes_per_page, Flush.page_start, Flush.page_end,
    Flush.first_page, Flush.pages, Flush.bytes_per_page.
  cbn [deref mbind outcome_bind].
  match goal with
  | |- context [for_each ?b ?ps ?s] => destruct (for_each b ps s)
  end; reflexivity.
Qed.

(** With a limit of zero, a page whose [bytes_remaining] is not zero never
    ends; a page whose [bytes_remaining] is zero sends its page-select
    command and nothing else. *)
Lemma display_page_stuck_any fuel dev d p bus :
  limit dev = 0 -> Flush.bytes_remaining d <> 0 ->
  GrayOLED.display_page fuel dev d (Flush.bytes_per_page d)
    (uint16_t (maxBufferSize dev - 1)) (Flush.page_start d) (Flush.page_end d)
    p bus
  = OutOfFuel.
Proof.
  intros Hlim Hne. unfold GrayOLED.display_page.
  fold (Flush.bytes_remaining d).
  assert (Hr : 0 < Flush.bytes_remaining d <= 255).
  { unfold Flush.bytes_remaining, uint8_t in *. lia. }
  rewrite transfer_stuck; [reflexivity|exact Hr|].
  rewrite arduino_min, limit_uint16, Hlim. lia.
Qed.

Lemma display_page_nothing_left fuel dev d p bus :
  Flush.bytes_remaining d = 0 ->
  exists bus',
    GrayOLED.display_page fuel dev d (Flush.bytes_per_page d)
      (uint16_t (maxBufferSize dev - 1)) (Flush.page_start d)
      (Flush.page_end d) p bus
    = Returns bus'.
Proof.
  intros Hz. unfold GrayOLED.display_page.
  fold (Flush.bytes_remaining d). rewrite Hz.
  destruct fuel; simpl; eexists; reflexivity.
Qed.

Lemma for_each_returns {S : Type} (body : Z -> S -> outcome S) ps :
  (forall p s, exists s', body p s = Returns s') ->
  forall s, exists s', for_each body ps s = Returns s'.
Proof.
  intros Hbody. induction ps as [|p ps IH]; intros s; simpl.
  - now exists s.
  - destruct (Hbody p s) as (s1 & ->). simpl. apply IH.
Qed.

(** X9.  On an object with an I2C device whose limit is zero in the eight
    bits [display] of part_000 keeps it in ([maxBufferSize] 1, 257, 513, ...),
    the call never returns exactly when its page loop has a round to run,
    [first_page < pages], and the [bytes_remaining] that a round starts with
    is not zero, all three as the function holds them in a [uint8_t]: each
    round of the transfer loop then writes no byte and leaves
    [bytes_remaining] as it was.  Otherwise the call returns, with the window
    reset.  The condition holds for every window that is not empty and lies
    inside the buffer of a display of at most 255 columns and 2040 rows. *)
Theorem display_zero_limit_never_returns d dev :
  i2c_dev d = Some dev -> limit dev = 0 ->
  (Flush.first_page d < Flush.pages d /\ Flush.bytes_remaining d <> 0 ->
   forall fuel bus, GrayOLED.display fuel d bus = OutOfFuel) /\
  (~ (Flush.first_page d < Flush.pages d /\ Flush.bytes_remaining d <> 0) ->
   forall fuel bus, exists bus',
     GrayOLED.display fuel d bus = Returns (reset d, bus')) /\
  (0 < WIDTH d <= 255 -> 0 < HEIGHT d <= 2040 -> dirty_inside d ->
   Flush.first_page d < Flush.pages d /\ Flush.bytes_remaining d <> 0).
Proof.
  intros Hdev Hlim. split; [|split].
  - intros [Hp Hne] fuel bus. rewrite (display_unfold fuel d dev bus Hdev).
    unfold page_range. rewrite seqZ_cons by lia. simpl.
    now rewrite display_page_stuck_any.
  - intros Hnot fuel bus. rewrite (display_unfold fuel d dev bus Hdev).
    destruct (Z.lt_ge_cases (Flush.first_page d) (Flush.pages d)) as [Hp|Hp].
    + assert (Hz : Flush.bytes_remaining d = 0) by lia.
      match goal with
      | |- context [for_each ?b ?ps ?s0] =>
          destruct (for_each_returns b ps
                      (fun p s => display_page_nothing_left fuel dev d p s Hz)
                      s0) as (bus1 & ->)
      end.
      simpl. eexists. reflexivity.
    + unfold page_range. rewrite seqZ_nil by lia. simpl.
      eexists. reflexivity.
  - intros HW HH (Hx1 & Hx2 & Hy1 & Hy2).
    unfold Flush.first_page, Flush.pages, Flush.bytes_remaining,
      Flush.page_start, Flush.page_end, Flush.bytes_per_page.
    rewrite arduino_min, arduino_max, (Z.max_r 0 (window_x2 d)) by lia.
    rewrite !(uint8_t_small (WIDTH d)), (uint8_t_small (window_x1 d)),
      (uint8_t_small (window_x2 d)) by lia.
    rewrite (Z.min_r (WIDTH d) (window_x1 d)) by lia.
    rewrite !Z.quot_div_nonneg by lia.
    rewrite (uint8_t_small ((HEIGHT d + 7) / 8)) by lia.
    rewrite (uint8_t_small (window_y1 d / 8)) by lia.
    rewrite (uint8_t_small (WIDTH d - window_x1 d)) by lia.
    replace (WIDTH d - window_x1 d - (WIDTH d - 1 - window_x2 d))
      with (window_x2 d - window_x1 d + 1) by lia.
    rewrite (uint8_t_small (window_x2 d - window_x1 d + 1)) by lia.
    lia.
Qed.

Lemma display_zero_limit_never_returns_witness :
  GrayOLED.display 1000 (dirty_row (Some (reliable 513))) [] = OutOfFuel /\
  exists bus',
    GrayOLED.display 0
      (set_window (blank 256 8 (Some (reliable 257))) 0 0 255 7) []
    = Returns (reset (set_window (blank 256 8 (Some (reliable 257)))
                        0 0 255 7), bus').
Proof.
  split.
  - destruct (display_zero_limit_never_returns
                (dirty_row (Some (reliable 513))) (reliable 513)
                eq_refl eq_refl) as (Hloop & _).
    apply Hloop. vm_compute. split; [reflexivity | discriminate].
  - destruct (display_zero_limit_never_returns
                (set_window (blank 256 8 (Some (reliable 257))) 0 0 255 7)
                (reliable 257) eq_refl eq_refl) as (_ & Hret & _).
    apply Hret. vm_compute. intros [_ H]. now apply H.
Defined.

(** X10.  On a device that reports a buffer of one byte (or of 65537) the
    older [display] divides by zero: [maxbuff] is 0 and the function computes
    [bytes_per_page / maxbuff] before it sends anything. *)
Theorem GFX_display_zero_limit_divides_by_zero fuel d dev bus :
  i2c_dev d = Some dev -> uint16_t (maxBufferSize dev - 1) = 0 ->
  GFX.display fuel d bus = DivByZero.
Proof.
  intros Hdev Hm. unfold GFX.display. rewrite Hdev. simpl.
  unfold c_div. now rewrite Hm.
Qed.

Lemma GFX_display_zero_limit_divides_by_zero_witness :
  GFX.display 10 (blank 16 24 (Some (reliable 1))) [] = DivByZero.
Proof.
  apply (GFX_display_zero_limit_divides_by_zero 10
           (blank 16 24 (Some (reliable 1))) (reliable 1) []); reflexivity.
Defined.

(** The bytes of a page-select command: for a page below 80 and a column
    below 256 its second byte is [0xB0 + p], its third byte is [0x10] plus
    the high nibble of the column, its fourth the low nibble. *)
Lemma page_select_bytes p col :
  0 <= p < 80 -> 0 <= col < 256 ->
  exists b1 b2 b3,
    page_select p col = I2C_write [0x00; b1; b2; b3] true [] /\
    b1 - SH110X_SETPAGEADDR = p /\
    0x10 <= b2 <= 0x1F /\ 0 <= b3 <= 0xF /\
    (b2 - 0x10) * 16 + b3 = col.
Proof.
  intros Hp Hc. unfold page_select, SH110X_SETPAGEADDR.
  rewrite Z.shiftr_div_pow2, land_15 by lia. change (2 ^ 4) with 16.
  rewrite !uint8_t_small by lia.
  eexists _, _, _. split; [reflexivity|]. lia.
Qed.

(** X11.  The page-select commands that [display] of part_000 puts on the
    bus can be decoded.  On a display with an I2C device attached whose limit
    is not zero, with at most 255 columns and at most 640 rows (80 pages) and
    its buffer allocated, in the flush of a dirty window that is not empty
    and lies inside the buffer, the call issues [pages - first_page]
    page-select commands, and command [k] among them is the write of the four
    bytes [0x00, b1, b2, b3] with [b1 = 0xB0 + first_page + k], [b2] equal to
    [0x10] plus the high nibble of [x1] and [b3] the low nibble of [x1]: the
    page and the start column are recovered from the bytes on the bus. *)
Theorem display_page_selects_decode fuel d dev bus :
  drivable d dev -> HEIGHT d <= 640 -> dirty_inside d ->
  (Z.to_nat (window_x2 d - window_x1 d + 1) <= fuel)%nat ->
  exists bus' sent,
    GrayOLED.display fuel d bus = Returns (reset d, bus') /\
    ops bus' = ops bus ++ sent /\
    Z.of_nat (length (page_selects sent)) = pages_of d - window_y1 d / 8 /\
    forall k, 0 <= k < pages_of d - window_y1 d / 8 ->
      exists b1 b2 b3,
        page_selects sent !! Z.to_nat k
          = Some (I2C_write [0x00; b1; b2; b3] true []) /\
        b1 - SH110X_SETPAGEADDR = window_y1 d / 8 + k /\
        0xB0 <= b1 <= 0xFF /\ 0x10 <= b2 <= 0x1F /\ 0 <= b3 <= 0xF /\
        (b2 - 0x10) * 16 + b3 = window_x1 d.
Proof.
  intros Hd H640 Hw Hfuel.
  destruct (drivable_display_ops fuel d dev bus Hd Hw Hfuel)
    as (bus' & Hrun & Hops).
  pose proof (drivable_width d dev Hd) as HW.
  pose proof (drivable_height d dev Hd) as HH.
  destruct Hw as (Hx1 & Hx2 & Hy1 & Hy2).
  assert (Hpages : 0 <= window_y1 d / 8 < pages_of d /\ pages_of d <= 80)
    by (unfold pages_of; lia).
  exists bus', (flush_ops d (limit dev)).
  split; [exact Hrun|]. split; [exact Hops|].
  rewrite page_selects_flush_ops. unfold page_range. split.
  - rewrite length_fmap, length_seqZ. lia.
  - intros k Hk.
    destruct (page_select_bytes (window_y1 d / 8 + k) (window_x1 d))
      as (b1 & b2 & b3 & E & H1 & H2 & H3 & H4); [lia|lia|].
    exists b1, b2, b3. split.
    + rewrite list_lookup_fmap, lookup_seqZ_lt by lia. simpl.
      now rewrite Z2Nat.id, E by lia.
    + unfold SH110X_SETPAGEADDR in *. lia.
Qed.

Lemma display_page_selects_decode_witness :
  drivable (markDirty (blank 128 64 (Some (reliable 32))) 10 20) (reliable 32)
  /\ dirty_inside (markDirty (blank 128 64 (Some (reliable 32))) 10 20) /\
  exists bus' sent,
    GrayOLED.display 1 (markDirty (blank 128 64 (Some (reliable 32))) 10 20) []
      = Returns (reset (markDirty (blank 128 64 (Some (reliable 32))) 10 20),
                 bus') /\
    ops bus' = sent /\
    exists b1 b2 b3,
      page_selects sent !! 0%nat = Some (I2C_write [0x00; b1; b2; b3] true [])
      /\ b1 - SH110X_SETPAGEADDR = 2 /\ (b2 - 0x10) * 16 + b3 = 10.
Proof.
  set (d := markDirty (blank 128 64 (Some (reliable 32))) 10 20).
  assert (Hd : drivable d (reliable 32)) by (split; evaluate).
  assert (Hw : dirty_inside d) by evaluate.
  split; [exact Hd|]. split; [exact Hw|].
  destruct (display_page_selects_decode 1 d (reliable 32) [] Hd)
    as (bus' & sent & Hrun & Hops & _ & Hdec);
    [simpl; lia | exact Hw | simpl; lia |].
  exists bus', sent. split; [exact Hrun|]. split; [exact Hops|].
  destruct (Hdec 0) as (b1 & b2 & b3 & E & H1 & _ & _ & _ & H2);
    [vm_compute; split; [discriminate | reflexivity]|].
  exists b1, b2, b3. split; [exact E|]. split; [exact H1 | exact H2].
Defined.

(** X12.  The traffic of a flush of part_000.  On a display with an I2C
    device attached whose eight-bit limit [L] is not zero, with at most 255
    columns and at most 1024 rows and its buffer allocated, for a dirty
    window of [w] columns that is not empty, lies inside the buffer and
    starts in page [first_page], the call issues two clock settings and, for
    each of the [pages - first_page] pages, one page-select command and
    [ceil (w / L)] data transfers; the data transfers carry
    [(pages - first_page) * w] bytes of the buffer in all. *)
Theorem display_traffic fuel d dev bus :
  flushable d dev -> dirty_inside d ->
  (Z.to_nat (window_x2 d - window_x1 d + 1) <= fuel)%nat ->
  exists bus' sent,
    GrayOLED.display fuel d bus = Returns (reset d, bus') /\
    ops bus' = ops bus ++ sent /\
    Z.of_nat (length sent) =
      2 + (pages_of d - window_y1 d / 8)
          * (1 + (window_x2 d - window_x1 d + 1 + limit dev - 1) / limit dev) /\
    Z.of_nat (length (concat (payload <$> data_transfers sent))) =
      (pages_of d - window_y1 d / 8) * (window_x2 d - window_x1 d + 1).
Proof.
  intros Hd Hw Hfuel.
  destruct (display_ops fuel d dev bus Hd Hw Hfuel) as (bus' & Hrun & Hops).
  exists bus', (flush_ops d (limit dev)).
  split; [exact Hrun|]. split; [exact Hops|].
  pose proof (flushable_limit d dev Hd) as Hm.
  assert (Hn : Z.of_nat (length (page_range (window_y1 d / 8) (pages_of d)))
               = pages_of d - window_y1 d / 8).
  { unfold page_range. rewrite length_seqZ.
    destruct Hd as [_ _ HH _ _]. destruct Hw as (_ & _ & Hy1 & Hy2).
    unfold pages_of. lia. }
  split.
  - unfold flush_ops. simpl length. rewrite length_app. simpl length.
    rewrite Nat2Z.inj_succ, Nat2Z.inj_add.
    rewrite (length_concat_const (page_ops d (limit dev)) _
               (1 + (window_x2 d - window_x1 d + 1 + limit dev - 1)
                    / limit dev)).
    + rewrite Hn. lia.
    + intros p _. unfold page_ops. simpl length.
      rewrite Nat2Z.inj_succ, page_transfers_length; [lia|lia|].
      destruct Hw as (? & ? & _). lia.
  - rewrite data_transfers_flush_ops, payload_concat, <- list_fmap_compose.
    rewrite (length_concat_const _ _ (window_x2 d - window_x1 d + 1)).
    + now rewrite Hn.
    + intros p Hp. simpl.
      destruct (page_range_bounds d dev p Hd Hw Hp) as [Hp1 Hp0].
      pose proof (columns_length d dev p Hd Hw ltac:(lia)) as Hcol.
      pose proof (flushable_width d dev Hd) as HW.
      destruct Hw as (Hx1 & Hx2 & _).
      assert (0 <= p * WIDTH d) by (apply Z.mul_nonneg_nonneg; lia).
      rewrite page_transfers_payload by lia. exact Hcol.
Qed.

Lemma display_traffic_witness :
  flushable (dirty_row (Some (reliable 5))) (reliable 5) /\
  dirty_inside (dirty_row (Some (reliable 5))) /\
  exists bus' sent,
    GrayOLED.display 10 (dirty_row (Some (reliable 5))) []
      = Returns (reset (dirty_row (Some (reliable 5))), bus') /\
    ops bus' = sent /\
    Z.of_nat (length sent) = 6.
Proof.
  assert (Hd : flushable (dirty_row (Some (reliable 5))) (reliable 5))
    by (split; evaluate).
  assert (Hw : dirty_inside (dirty_row (Some (reliable 5)))) by evaluate.
  split; [exact Hd|]. split; [exact Hw|].
  destruct (display_traffic 10 (dirty_row (Some (reliable 5)))
              (reliable 5) [] Hd Hw) as (bus' & sent & Hrun & Hops & Hn & _).
  - simpl. lia.
  - exists bus', sent. split; [exact Hrun|]. split; [exact Hops | exact Hn].
Defined.

(** ** The command functions *)

Lemma spi_stream_snoc pins o : spi_stream (pins ++ [o]) = spi_stream pins ++ spi_data o.
Proof.
  unfold spi_stream. rewrite fmap_app, List.concat_app. simpl.
  now rewrite app_nil_r.
Qed.

Lemma wire_stream_snoc (bus : Log) o ok :
  wire_stream (bus ++ [(o, ok)]) = wire_stream bus ++ wire o.
Proof.
  unfold wire_stream. rewrite ops_snoc, fmap_app, List.concat_app. simpl.
  now rewrite app_nil_r.
Qed.

(** The loop sends the bytes of the array one transaction each, in order. *)
Lemma spi_each_sends c w sdev pins :
  spi_dev w = Some sdev ->
  exists oks,
    length oks = length c /\
    spi_each (length c) c w pins =
      Returns (pins ++ zip_with (fun b ok => SPI_write [b] ok) c oks).
Proof.
  intros Hs. revert pins. induction c as [|b c IH]; intros pins.
  - exists []. simpl. now rewrite app_nil_r.
  - simpl. rewrite Hs. simpl.
    destruct (IH (pins ++ [SPI_write [b] (spi_ack sdev (length pins))]))
      as (oks & Hlen & Hrun).
    exists (spi_ack sdev (length pins) :: oks). split; [simpl; now f_equal|].
    rewrite Hrun. simpl. now rewrite <- app_assoc.
Qed.

Lemma spi_stream_app l1 l2 : spi_stream (l1 ++ l2) = spi_stream l1 ++ spi_stream l2.
Proof. unfold spi_stream. now rewrite fmap_app, List.concat_app. Qed.

Lemma spi_stream_sends c oks :
  length oks = length c ->
  spi_stream (zip_with (fun b ok => SPI_write [b] ok) c oks) = c.
Proof.
  revert oks. induction c as [|b c IH]; intros [|ok oks] Hl;
    try discriminate; [reflexivity|].
  simpl in *. unfold spi_stream in *. simpl. f_equal. apply IH. lia.
Qed.

(** X13.  Over SPI, on an object without I2C device, [sh110x_commandList]
    pulls the data/command pin low once and then sends the [n] bytes of the
    list in order, one SPI transaction per byte; it reports success whatever
    statuses those transactions returned, and leaves the I2C side alone. *)
Theorem commandList_over_spi d w sdev c bus pins :
  i2c_dev d = None -> spi_dev w = Some sdev ->
  exists oks,
    length oks = length c /\
    sh110x_commandList d w c (Z.of_nat (length c)) (bus, pins) =
      Returns ((bus,
                pins ++ digitalWrite (dcPin w) LOW
                        :: zip_with (fun b ok => SPI_write [b] ok) c oks),
               true) /\
    spi_stream (pins ++ digitalWrite (dcPin w) LOW
                        :: zip_with (fun b ok => SPI_write [b] ok) c oks)
      = spi_stream pins ++ c.
Proof.
  intros Hi Hs.
  destruct (spi_each_sends c w sdev (pins ++ [digitalWrite (dcPin w) LOW]) Hs)
    as (oks & Hlen & Hrun).
  exists oks. split; [exact Hlen|]. split.
  - unfold sh110x_commandList. rewrite Hi, Nat2Z.id. simpl.
    rewrite Hrun. simpl. now rewrite <- app_assoc.
  - rewrite spi_stream_app. f_equal.
    change (spi_stream (digitalWrite ?p ?v :: ?l)) with (spi_stream l).
    now apply spi_stream_sends.
Qed.

Lemma commandList_over_spi_witness :
  exists oks,
    sh110x_commandList (blank 16 24 None)
      {| spi_dev := Some {| spi_ack := fun _ => false |}; dcPin := 9 |}
      [0xAE; 0xA6] 2 ([], [])
    = Returns (([], digitalWrite 9 LOW
                    :: zip_with (fun b ok => SPI_write [b] ok) [0xAE; 0xA6] oks),
               true).
Proof.
  destruct (commandList_over_spi (blank 16 24 None)
              {| spi_dev := Some {| spi_ack := fun _ => false |}; dcPin := 9 |}
              {| spi_ack := fun _ => false |} [0xAE; 0xA6] [] [] eq_refl eq_refl)
    as (oks & _ & Hrun & _).
  exists oks. exact Hrun.
Defined.

(** X14.  Over I2C, [sh110x_commandList] sends the first [n] bytes of the list
    in one write behind the control byte [0x00] and returns the status of
    that write, false exactly when the device failed it; [sh110x_command]
    puts the same two bytes [0x00, c] on the wire as a list of the one
    command [c] does, and drops the status.  Neither touches the SPI side. *)
Theorem commands_over_i2c d w dev c n b bus pins :
  i2c_dev d = Some dev -> 0 <= n <= Z.of_nat (length c) ->
  (exists bus',
     sh110x_commandList d w c n (bus, pins)
       = Returns ((bus', pins), ack dev (length bus)) /\
     wire_stream bus' = wire_stream bus ++ 0x00 :: take (Z.to_nat n) c /\
     length bus' = S (length bus)) /\
  (exists bus1 bus2,
     sh110x_command d w b (bus, pins) = Returns (bus1, pins) /\
     sh110x_commandList d w [b] 1 (bus, pins)
       = Returns ((bus2, pins), ack dev (length bus)) /\
     wire_stream bus1 = wire_stream bus ++ [0x00; b] /\
     wire_stream bus2 = wire_stream bus1).
Proof.
  intros Hi Hn. split.
  - exists (bus ++ [(I2C_write (read c 0 n) true [0x00], ack dev (length bus))]).
    split; [|split].
    + unfold sh110x_commandList. rewrite Hi. simpl.
      destruct (ack dev (length bus)); reflexivity.
    + rewrite wire_stream_snoc. simpl. unfold read. now rewrite drop_0.
    + rewrite length_app. simpl. lia.
  - exists (bus ++ [(I2C_write [0x00; b] true [], ack dev (length bus))]),
      (bus ++ [(I2C_write [b] true [0x00], ack dev (length bus))]).
    split; [|split; [|split]].
    + unfold sh110x_command. rewrite Hi. reflexivity.
    + unfold sh110x_commandList. rewrite Hi. simpl.
      destruct (ack dev (length bus)); reflexivity.
    + now rewrite wire_stream_snoc.
    + now rewrite !wire_stream_snoc.
Qed.

Lemma commands_over_i2c_witness :
  exists bus',
    sh110x_commandList (blank 16 24 (Some (failing_at 32 0))) 
      {| spi_dev := None; dcPin := 9 |} [0xAE; 0xA6] 2 ([], [])
    = Returns ((bus', []), false).
Proof.
  destruct (commands_over_i2c (blank 16 24 (Some (failing_at 32 0)))
              {| spi_dev := None; dcPin := 9 |} (failing_at 32 0)
              [0xAE; 0xA6] 2 0 [] [] eq_refl) as [(bus' & Hrun & _) _].
  - simpl. lia.
  - exists bus'. exact Hrun.
Defined.

(** ** Compositions *)

Lemma getPixel_clearDisplay d x y :
  begun d -> GFX.getPixel (GFX.clearDisplay d) x y = false.
Proof.
  intros Hd. pose proof (clearDisplay_buffer d Hd) as Hb.
  destruct (GFX.in_bounds (GFX.clearDisplay d) x y) eqn:E.
  - apply in_bounds_inside in E.
    pose proof (clearDisplay_begun d Hd) as Hd'.
    rewrite getPixel_inside by assumption.
    pose proof (pixel_byte_allocated _ x y Hd' E) as Hi.
    unfold bit_at. rewrite Hb in *. rewrite length_replicate in Hi.
    rewrite lookup_total_replicate_2 by assumption.
    apply Z.bits_0.
  - unfold GFX.getPixel. now rewrite E.
Qed.

(** X15.  After [clearDisplay], a pixel drawn white inside the bounds is the
    only pixel that is on: [getPixel] returns true at that point and false at
    every other point of the display. *)
Theorem clear_then_draw_lights_one_pixel d x y x2 y2 :
  begun d -> inside d x y -> inside d x2 y2 ->
  GFX.getPixel (GFX.drawPixel (GFX.clearDisplay d) x y SH110X_WHITE) x2 y2
    = bool_decide ((x2, y2) = (x, y)).
Proof.
  intros Hd Hin H2.
  pose proof (clearDisplay_begun d Hd) as Hd'.
  assert (Hin' : inside (GFX.clearDisplay d) x y) by exact Hin.
  assert (H2' : inside (GFX.clearDisplay d) x2 y2) by exact H2.
  rewrite getPixel_inside
    by (try apply drawPixel_begun; try apply drawPixel_inside; assumption).
  rewrite drawPixel_pixel_byte, drawPixel_pixel_bit.
  rewrite drawPixel_bit_at by (auto using pixel_bit_range).
  rewrite <- getPixel_inside by assumption.
  rewrite getPixel_clearDisplay by assumption.
  destruct (decide ((x2, y2) = (x, y))) as [E|Hne].
  - rewrite bool_decide_eq_true_2 by assumption.
    injection E as -> ->. now rewrite decide_True.
  - rewrite bool_decide_eq_false_2 by assumption.
    rewrite decide_False; [reflexivity|].
    intros [Hbyte Hbit]. apply Hne.
    destruct (pixel_address_inj _ x2 y2 x y Hd' H2' Hin' Hbyte Hbit).
    congruence.
Qed.

Lemma clear_then_draw_lights_one_pixel_witness :
  begun (rotated (blank 16 24 None) 3) /\
  GFX.getPixel
    (GFX.drawPixel (GFX.clearDisplay (rotated (blank 16 24 None) 3))
       20 3 SH110X_WHITE) 20 4 = false.
Proof.
  assert (Hd : begun (rotated (blank 16 24 None) 3)) by (split; evaluate).
  split; [exact Hd|].
  apply (clear_then_draw_lights_one_pixel _ 20 3 20 4 Hd); evaluate.
Defined.

(** X16.  No data transfer of the older [display] overruns the device either:
    on a device that reports a buffer of 2 to 65536 bytes, every data transfer
    carries at least one byte and, with its one byte of prefix, at most
    [maxBufferSize] bytes. *)
Theorem GFX_display_transfers_fit_device fuel d dev bus :
  begun d -> i2c_dev d = Some dev -> 2 <= maxBufferSize dev <= 65536 ->
  (Z.to_nat (WIDTH d) <= fuel)%nat ->
  exists bus' sent,
    GFX.display fuel d bus = Returns (d, bus') /\
    ops bus' = ops bus ++ sent /\
    Forall (fun o => 1 <= Z.of_nat (length (payload o)) /\
                     Z.of_nat (length (payload o)) + 1 <= maxBufferSize dev)
      (data_transfers sent).
Proof.
  intros [HW HH HR Hlen] Hdev Hmax Hfuel.
  assert (Hm : uint16_t (maxBufferSize dev - 1) = maxBufferSize dev - 1)
    by (apply uint16_t_small; lia).
  destruct (GFX_display_ops fuel d dev bus Hdev HW HH ltac:(lia) Hfuel)
    as (bus' & Hrun & Hops).
  eexists bus', _. split; [exact Hrun|]. split; [exact Hops|].
  clear Hops Hrun.
  assert (Hps : Forall (fun p => 0 <= p < pages_of d) (seqZ 0 (pages_of d)))
    by (apply Forall_forall; intros p Hp; apply elem_of_seqZ in Hp; lia).
  induction Hps as [|p ps Hp Hps IH]; [constructor|].
  rewrite fmap_cons, List.concat_cons, data_transfers_app.
  apply Forall_app. split; [|exact IH].
  change (data_transfers (I2C_write [?a; ?b; ?c; ?e] true [] :: ?l))
    with (data_transfers l).
  rewrite data_transfers_transfers.
  assert (0 <= p * WIDTH d) by (apply Z.mul_nonneg_nonneg; lia).
  assert (WIDTH d * (p + 1) <= WIDTH d * pages_of d)
    by (apply Z.mul_le_mono_nonneg_l; lia).
  assert (Hin : (Z.to_nat (p * WIDTH d + WIDTH d) <= length (buffer d))%nat).
  { rewrite Hlen. unfold buffer_size. rewrite Z.quot_div_nonneg by lia.
    fold (pages_of d). lia. }
  pose proof (page_transfers_fit (buffer d) (p * WIDTH d) (WIDTH d)
                (uint16_t (maxBufferSize dev - 1))
                ltac:(lia) ltac:(lia) ltac:(lia) Hin) as Hfit.
  eapply Forall_impl; [exact Hfit|]. intros o Ho. simpl in Ho. lia.
Qed.

Lemma GFX_display_transfers_fit_device_witness :
  begun (blank 16 24 (Some (reliable 5))) /\
  exists bus',
    GFX.display 16 (blank 16 24 (Some (reliable 5))) []
      = Returns (blank 16 24 (Some (reliable 5)), bus').
Proof.
  assert (Hd : begun (blank 16 24 (Some (reliable 5)))) by (split; evaluate).
  split; [exact Hd|].
  destruct (GFX_display_transfers_fit_device 16
              (blank 16 24 (Some (reliable 5))) (reliable 5) [] Hd eq_refl)
    as (bus' & sent & Hrun & _).
  - simpl. lia.
  - simpl. lia.
  - exists bus'. exact Hrun.
Defined.

(** X17.  With the whole buffer dirty, [display] of part_000 sends the whole
    buffer, on a display with an I2C device attached whose eight-bit limit is
    not zero, with at most 255 columns and at most 1024 rows and its buffer
    allocated: for the window [(0, 0, WIDTH - 1, HEIGHT - 1)] it issues a
    page-select command for every page from 0 on, each at column 0, and the
    payloads of its data transfers, put end to end, are the framebuffer. *)
Theorem display_full_window_sends_buffer fuel d dev bus :
  flushable d dev ->
  window d = (0, 0, WIDTH d - 1, HEIGHT d - 1) ->
  (Z.to_nat (WIDTH d) <= fuel)%nat ->
  exists bus' sent,
    GrayOLED.display fuel d bus = Returns (reset d, bus') /\
    ops bus' = ops bus ++ sent /\
    page_selects sent = (fun p => page_select p 0) <$> seqZ 0 (pages_of d) /\
    concat (payload <$> data_transfers sent) = buffer d.
Proof.
  intros Hd Hwin Hfuel. unfold window in Hwin.
  injection Hwin as Hx1 Hy1 Hx2 Hy2.
  pose proof (flushable_width d dev Hd) as HW.
  pose proof (flushable_height d dev Hd) as HH.
  pose proof (flushable_limit d dev Hd) as Hm.
  pose proof (flushable_buffer d dev Hd) as Hlen.
  assert (Hw : dirty_inside d) by (unfold dirty_inside; lia).
  destruct (display_ops fuel d dev bus Hd Hw) as (bus' & Hrun & Hops);
    [rewrite Hx1, Hx2; lia|].
  exists bus', (flush_ops d (limit dev)).
  split; [exact Hrun|]. split; [exact Hops|].
  assert (Hn : pages_of d = Z.of_nat (Z.to_nat (pages_of d)))
    by (unfold pages_of; lia).
  split.
  - rewrite page_selects_flush_ops, Hx1, Hy1. unfold page_range.
    change (0 / 8) with 0. now rewrite Z.sub_0_r.
  - rewrite data_transfers_flush_ops, payload_concat, <- list_fmap_compose.
    rewrite Hx1, Hx2, Hy1. unfold page_range.
    change (0 / 8) with 0. rewrite (Z.sub_0_r (pages_of d)).
    transitivity
      (concat ((fun p => read (buffer d) (p * WIDTH d) (WIDTH d))
               <$> seqZ 0 (pages_of d))).
    + f_equal. apply list_fmap_ext. intros i p Hp. simpl.
      apply lookup_seqZ in Hp.
      assert (0 <= p * WIDTH d) by (apply Z.mul_nonneg_nonneg; lia).
      rewrite page_transfers_payload by lia. f_equal; lia.
    + rewrite Hn, read_pages by lia. rewrite <- Hn.
      apply read_all. rewrite Hlen. unfold buffer_size, pages_of.
      rewrite Z.quot_div_nonneg by lia. f_equal. lia.
Qed.

Lemma display_full_window_sends_buffer_witness :
  flushable (set_window (blank 16 24 (Some (reliable 5))) 0 0 15 23)
    (reliable 5) /\
  exists bus' sent,
    GrayOLED.display 16
      (set_window (blank 16 24 (Some (reliable 5))) 0 0 15 23) []
      = Returns (reset (set_window (blank 16 24 (Some (reliable 5)))
                          0 0 15 23), bus') /\
    ops bus' = sent /\
    concat (payload <$> data_transfers sent)
      = buffer (blank 16 24 (Some (reliable 5))).
Proof.
  assert (Hd : flushable (set_window (blank 16 24 (Some (reliable 5)))
                            0 0 15 23) (reliable 5)) by (split; evaluate).
  split; [exact Hd|].
  destruct (display_full_window_sends_buffer 16
              (set_window (blank 16 24 (Some (reliable 5))) 0 0 15 23)
              (reliable 5) [] Hd eq_refl)
    as (bus' & sent & Hrun & Hops & _ & Hall).
  - simpl. lia.
  - exists bus', sent. split; [exact Hrun|]. split; [exact Hops | exact Hall].
Defined.
